(** * rif-relay-common: the relay feasibility engine and its version gate

    A shallow embedding of [src/ContractInteractor.ts] and of
    [VersionsManager] (the compiled [VersionsManager.js]), with the
    statements of the specification settled against it.

    Conventions of the embedding.
    - A JavaScript function that can throw returns a [Result]; a thrown
      value is an [Error] object carrying its [message], which is all the
      [catch ({ message })] clauses of the source look at.
    - An ethers [BigNumber] is an integer of [Z]; its operations are written
      out with the failures ethers gives them (division by zero, a JavaScript
      number that is not a whole number).
    - A JavaScript number is an IEEE-754 double, [spec_float].
    - The chain node, the contracts behind it and the ABI encoder are outside
      the repository: they are a [Gateway] record of answers, and every call
      made to it is appended to a trace, so that "this call was never made" is
      a statement about the trace.
    - The static field [ContractInteractor.instance] is a component of the
      heap threaded through every asynchronous method. *)

From Stdlib Require Import ZArith List String Ascii Bool Lia.
From Stdlib Require Import Floats.SpecFloat.
Import ListNotations.

Local Open Scope string_scope.
Local Open Scope Z_scope.

Set Implicit Arguments.

(* ================================================================= *)
(** ** Thrown values and results *)

Record Error : Type := mkError { message : string }.

Inductive Result (A : Type) : Type :=
| Ok (a : A)
| Throw (e : Error).

Arguments Ok {A} a.
Arguments Throw {A} e.

Definition throws {A : Type} (r : Result A) : bool :=
  match r with Ok _ => false | Throw _ => true end.

(* ================================================================= *)
(** ** The JavaScript string operations the sources use *)

Module JS.

Fixpoint drop (n : nat) (s : string) : string :=
  match n, s with
  | O, _ => s
  | S n', String _ s' => drop n' s'
  | S _, EmptyString => EmptyString
  end.

(** [s.replace(pat, rep)] with a string pattern: the FIRST occurrence of
    [pat] only.  ([rep] holds no dollar sign where the source calls it.) *)
Fixpoint replace (pat rep s : string) : string :=
  if String.prefix pat s then rep ++ drop (String.length pat) s
  else match s with
       | EmptyString => EmptyString
       | String c s' => String c (replace pat rep s')
       end.

(** Every occurrence of the character [a] turned into [b]: what the
    specification calls normalisation. *)
Fixpoint replaceEvery (a b : ascii) (s : string) : string :=
  match s with
  | EmptyString => EmptyString
  | String c s' => String (if Ascii.eqb c a then b else c) (replaceEvery a b s')
  end.

Fixpoint count (a : ascii) (s : string) : nat :=
  match s with
  | EmptyString => O
  | String c s' => ((if Ascii.eqb c a then 1 else 0) + count a s')%nat
  end.

(** [s.includes(t)] as a proposition. *)
Definition includes (s t : string) : Prop :=
  exists before after, s = before ++ t ++ after.

Definition isWhiteSpace (c : ascii) : bool :=
  let n := nat_of_ascii c in
  ((9 <=? n) && (n <=? 13) || (n =? 32))%nat.

Fixpoint trimStart (s : string) : string :=
  match s with
  | String c s' => if isWhiteSpace c then trimStart s' else s
  | EmptyString => EmptyString
  end.

Fixpoint trimEnd (s : string) : string :=
  match s with
  | EmptyString => EmptyString
  | String c s' =>
      match trimEnd s' with
      | EmptyString => if isWhiteSpace c then EmptyString else String c EmptyString
      | t => String c t
      end
  end.

(** [s.trim()], for the ASCII white space. *)
Definition trim (s : string) : string := trimEnd (trimStart s).

(** [s.split(sep)] for a one-character separator. *)
Fixpoint split (sep : ascii) (s : string) : list string :=
  match s with
  | EmptyString => [EmptyString]
  | String c s' =>
      if Ascii.eqb c sep then EmptyString :: split sep s'
      else match split sep s' with
           | h :: t => String c h :: t
           | [] => [String c EmptyString]
           end
  end.

(** The text before the first [sep], and the text after it when there is
    one. *)
Fixpoint cut (sep : ascii) (s : string) : string * option string :=
  match s with
  | EmptyString => (EmptyString, None)
  | String c s' =>
      if Ascii.eqb c sep then (EmptyString, Some s')
      else let (h, t) := cut sep s' in (String c h, t)
  end.

Fixpoint all (p : ascii -> bool) (s : string) : bool :=
  match s with
  | EmptyString => true
  | String c s' => p c && all p s'
  end.

Definition isEmpty (s : string) : bool :=
  match s with EmptyString => true | _ => false end.

End JS.

(* ================================================================= *)
(** ** semver, as far as [VersionsManager] uses it

    The npm package [semver] is a dependency of the repository, not part of
    it.  What follows is its strict (non-loose) behaviour with default
    options: the grammar of a full version, the order of versions, the
    desugaring of a caret range into two comparators, and the rule that a
    version with a pre-release tag satisfies a comparator set only when a
    comparator on the same [major.minor.patch] carries a tag too.  Of the
    range syntax only the form [VersionsManager] builds, a caret followed by
    a full version, is covered.  The numbers of a version are compared as
    the doubles JavaScript makes of them: exact below 2^53, rounded to the
    nearest double (ties to even) from there on. *)

Module Semver.

Definition MAX_LENGTH : nat := 256.
Definition MAX_SAFE_INTEGER : Z := 9007199254740991.

Inductive Identifier : Type :=
| NumId (n : Z)
| StrId (s : string).

Record SemVer : Type := mkSemVer {
  major : Z;
  minor : Z;
  patch : Z;
  prerelease : list Identifier;
  build : list string
}.

(** *** The grammar *)

Definition isDigit (c : ascii) : bool :=
  let n := nat_of_ascii c in ((48 <=? n) && (n <=? 57))%nat.

Definition isLetter (c : ascii) : bool :=
  let n := nat_of_ascii c in
  ((65 <=? n) && (n <=? 90) || (97 <=? n) && (n <=? 122))%nat.

(** [[0-9A-Za-z-]] *)
Definition isIdentifierChar (c : ascii) : bool :=
  isDigit c || isLetter c || Ascii.eqb c "-".

(** [0|[1-9]\d*] *)
Definition numericIdentifier (s : string) : bool :=
  match s with
  | EmptyString => false
  | String c EmptyString => isDigit c
  | String c s' => isDigit c && negb (Ascii.eqb c "0") && JS.all isDigit s'
  end.

(** A numeric identifier, or [\d*[a-zA-Z-][a-zA-Z0-9-]*]. *)
Definition prereleaseIdentifier (s : string) : bool :=
  negb (JS.isEmpty s) && JS.all isIdentifierChar s
  && (if JS.all isDigit s then numericIdentifier s else true).

(** [[0-9A-Za-z-]+] *)
Definition buildIdentifier (s : string) : bool :=
  negb (JS.isEmpty s) && JS.all isIdentifierChar s.

Definition digitValue (c : ascii) : Z := Z.of_nat (nat_of_ascii c) - 48.

Fixpoint toNumberFrom (acc : Z) (s : string) : Z :=
  match s with
  | EmptyString => acc
  | String c s' => toNumberFrom (10 * acc + digitValue c) s'
  end.

(** [+s] for a string of decimal digits. *)
Definition toNumber (s : string) : Z := toNumberFrom 0 s.

Definition optionAll (p : string -> bool) (o : option string) : bool :=
  match o with
  | None => true
  | Some s => forallb p (JS.split "." s)
  end.

(** The groups of the regular expression FULL: an optional [v], three
    numeric identifiers separated by dots, then optionally a hyphen and
    dot-separated pre-release identifiers, then optionally a plus sign and
    dot-separated build identifiers, and nothing after. *)
Definition matchFull (s : string)
  : option (string * string * string * option string * option string) :=
  let s := match s with String "v" s' => s' | _ => s end in
  let (front, bld) := JS.cut "+" s in
  let (main, pre) := JS.cut "-" front in
  match JS.split "." main with
  | [M; m; p] =>
      if numericIdentifier M && numericIdentifier m && numericIdentifier p
         && optionAll prereleaseIdentifier pre
         && optionAll buildIdentifier bld
      then Some (M, m, p, pre, bld)
      else None
  | _ => None
  end.

(** A numeric identifier below [MAX_SAFE_INTEGER] becomes a number, any
    other identifier stays a string. *)
Definition toIdentifier (id : string) : Identifier :=
  if JS.all isDigit id && (toNumber id <? MAX_SAFE_INTEGER)
  then NumId (toNumber id)
  else StrId id.

Definition splitIds {A : Type} (f : string -> A) (o : option string) : list A :=
  match o with
  | None => []
  | Some s => map f (JS.split "." s)
  end.

(** The checks the [SemVer] constructor makes on its three numbers. *)
Definition checked (M m p : Z) (pre : list Identifier) (bld : list string)
  : Result SemVer :=
  if (MAX_SAFE_INTEGER <? M) || (M <? 0)
  then Throw (mkError "Invalid major version")
  else if (MAX_SAFE_INTEGER <? m) || (m <? 0)
  then Throw (mkError "Invalid minor version")
  else if (MAX_SAFE_INTEGER <? p) || (p <? 0)
  then Throw (mkError "Invalid patch version")
  else Ok (mkSemVer M m p pre bld).

(** [new SemVer(version)] *)
Definition SemVer_new (version : string) : Result SemVer :=
  if (MAX_LENGTH <? String.length version)%nat
  then Throw (mkError "version is longer than 256 characters")
  else match matchFull (JS.trim version) with
       | None => Throw (mkError ("Invalid Version: " ++ version))
       | Some (M, m, p, pre, bld) =>
           checked (toNumber M) (toNumber m) (toNumber p)
                   (splitIds toIdentifier pre) (splitIds (fun b => b) bld)
       end.

(** [semver.valid(version)]: null unless the version parses.  (The library
    answers with the printed version; the caller only tests for null.) *)
Definition valid (version : string) : option SemVer :=
  match SemVer_new version with
  | Ok v => Some v
  | Throw _ => None
  end.

(** *** The order *)

Definition isNumeric (a : Identifier) : bool :=
  match a with
  | NumId _ => true
  | StrId s => negb (JS.isEmpty s) && JS.all isDigit s
  end.

(** The double nearest to a whole number [n] that is not negative, as a
    whole number: [n] itself below 2^53, and from there on [n] rounded to 53
    significant bits, ties to even. *)
Definition toDouble (n : Z) : Z :=
  if n <? 2 ^ 53 then n
  else
    let e := Z.log2 n - 52 in
    let q := n / 2 ^ e in
    let r := n mod 2 ^ e in
    let half := 2 ^ (e - 1) in
    if r <? half then q * 2 ^ e
    else if half <? r then (q + 1) * 2 ^ e
    else if Z.even q then q * 2 ^ e
    else (q + 1) * 2 ^ e.

(** [+a]: an identifier kept as a number is below 2^53 and exact; one kept
    as a string of digits becomes a double. *)
Definition numberOf (a : Identifier) : Z :=
  match a with NumId n => n | StrId s => toDouble (toNumber s) end.

Definition textOf (a : Identifier) : string :=
  match a with NumId _ => EmptyString | StrId s => s end.

(** [a === b] *)
Definition sameIdentifier (a b : Identifier) : bool :=
  match a, b with
  | NumId n, NumId m => n =? m
  | StrId s, StrId t => String.eqb s t
  | _, _ => false
  end.

(** [compareIdentifiers(a, b)]: numbers before text, numbers by value,
    text by code units. *)
Definition compareIdentifiers (a b : Identifier) : comparison :=
  match isNumeric a, isNumeric b with
  | true, true => numberOf a ?= numberOf b
  | true, false => Lt
  | false, true => Gt
  | false, false => String.compare (textOf a) (textOf b)
  end.

Definition compareMain (a b : SemVer) : comparison :=
  match major a ?= major b with
  | Eq => match minor a ?= minor b with
          | Eq => patch a ?= patch b
          | c => c
          end
  | c => c
  end.

Fixpoint compareIds (a b : list Identifier) : comparison :=
  match a, b with
  | [], [] => Eq
  | _ :: _, [] => Gt
  | [], _ :: _ => Lt
  | x :: a', y :: b' =>
      if sameIdentifier x y then compareIds a' b' else compareIdentifiers x y
  end.

(** A version without a pre-release tag is above the same version with
    one. *)
Definition comparePre (a b : SemVer) : comparison :=
  match prerelease a, prerelease b with
  | _ :: _, [] => Lt
  | [], _ :: _ => Gt
  | [], [] => Eq
  | pa, pb => compareIds pa pb
  end.

Definition compare (a b : SemVer) : comparison :=
  match compareMain a b with
  | Eq => comparePre a b
  | c => c
  end.

(** *** Ranges *)

Inductive Operator : Type := GTE | LT.

Record Comparator : Type := mkComparator {
  operator : Operator;
  semver : SemVer
}.

Definition Range : Type := list (list Comparator).

(** [comparator.test(version)] *)
Definition Comparator_test (c : Comparator) (version : SemVer) : bool :=
  match operator c, compare version (semver c) with
  | GTE, Lt => false
  | GTE, _ => true
  | LT, Lt => true
  | LT, _ => false
  end.

Definition sameTuple (a b : SemVer) : bool :=
  (major a =? major b) && (minor a =? minor b) && (patch a =? patch b).

Definition hasPrerelease (v : SemVer) : bool :=
  match prerelease v with [] => false | _ :: _ => true end.

(** [testSet(set, version, options)] *)
Definition testSet (set : list Comparator) (version : SemVer) : bool :=
  if negb (forallb (fun c => Comparator_test c version) set) then false
  else if hasPrerelease version
  then existsb (fun c => hasPrerelease (semver c) && sameTuple (semver c) version) set
  else true.

(** [replaceCaret]: [^M.m.p-pr] is [>=M.m.p-pr <U-0], where [U] raises the
    left-most component of [M.m.p] that is not zero.  Each bound is then
    built as a [SemVer], which can fail. *)
Definition replaceCaret (M m p : Z) (pre : list Identifier) : Result Range :=
  match checked M m p pre [] with
  | Throw e => Throw e
  | Ok lower =>
      let upper :=
        if M =? 0
        then if m =? 0
             then checked M m (p + 1) [NumId 0] []
             else checked M (m + 1) 0 [NumId 0] []
        else checked (M + 1) 0 0 [NumId 0] [] in
      match upper with
      | Throw e => Throw e
      | Ok upper => Ok [[mkComparator GTE lower; mkComparator LT upper]]
      end
  end.

(** [new Range(range)], for a caret followed by a full version. *)
Definition Range_new (range : string) : Result Range :=
  match JS.trim range with
  | String "^" rest =>
      match matchFull (JS.trim rest) with
      | Some (M, m, p, pre, _) =>
          replaceCaret (toNumber M) (toNumber m) (toNumber p)
                       (splitIds toIdentifier pre)
      | None => Throw (mkError ("Invalid SemVer Range: " ++ range))
      end
  | _ => Throw (mkError ("Invalid SemVer Range: " ++ range))
  end.

(** [range.test(version)]: a version that does not parse is not in the
    range. *)
Definition Range_test (range : Range) (version : string) : Result bool :=
  if JS.isEmpty version then Ok false
  else match SemVer_new version with
       | Throw _ => Ok false
       | Ok v => Ok (existsb (fun set => testSet set v) range)
       end.

(** [semver.satisfies(version, range)]: a range that cannot be built is
    satisfied by nothing. *)
Definition satisfies (version range : string) : Result bool :=
  match Range_new range with
  | Throw _ => Ok false
  | Ok r => Range_test r version
  end.

End Semver.

(* ================================================================= *)
(** ** VersionsManager *)

Module VersionsManager.

Record t : Type := mk { componentVersion : string }.

(** [new VersionsManager(componentVersion)] *)
Definition new (componentVersion : string) : Result t :=
  match Semver.valid componentVersion with
  | None => Throw (mkError "Component version is not valid")
  | Some _ => Ok (mk componentVersion)
  end.

(** [isMinorSameOrNewer(version)] *)
Definition isMinorSameOrNewer (this : t) (version : string) : Result bool :=
  let version := JS.replace "_" "-" version in
  let range := "^" ++ componentVersion this in
  Semver.satisfies version range.

End VersionsManager.

(* ================================================================= *)
(** ** ethers: BigNumber and JavaScript numbers *)

Module Ethers.

(** A JavaScript number. *)
Definition number : Type := spec_float.

(** An ethers [BigNumber]: an integer of any size. *)
Definition BigNumber : Type := Z.

(** The whole number a double stands for, when it stands for one: the test
    [value % 1] of [BigNumber.from]. *)
Definition wholeNumber (value : number) : option Z :=
  match value with
  | S754_zero _ => Some 0
  | S754_finite s m e =>
      let sign := if s then -1 else 1 in
      if 0 <=? e then Some (sign * (Zpos m * 2 ^ e))
      else if Zpos m mod 2 ^ (- e) =? 0 then Some (sign * (Zpos m / 2 ^ (- e)))
      else None
  | S754_infinity _ | S754_nan => None
  end.

Definition MAX_SAFE : Z := 9007199254740991.

(** [BigNumber.from(value)] for a JavaScript number: a number with a
    fractional part is refused ("underflow"), and so is one outside the
    safe integers ("overflow"). *)
Definition from_number (value : number) : Result BigNumber :=
  match value with
  | S754_nan => Throw (mkError "invalid BigNumber string")
  | S754_infinity _ => Throw (mkError "overflow")
  | _ =>
      match wholeNumber value with
      | None => Throw (mkError "underflow")
      | Some z =>
          if (MAX_SAFE <=? z) || (z <=? - MAX_SAFE)
          then Throw (mkError "overflow")
          else Ok z
      end
  end.

Definition eq (a b : BigNumber) : bool := a =? b.
Definition gt (a b : BigNumber) : bool := b <? a.
Definition gte (a b : BigNumber) : bool := b <=? a.
Definition sub (a b : BigNumber) : BigNumber := a - b.

(** [a.mul(other)] where [other] is a JavaScript number. *)
Definition mul (a : BigNumber) (other : number) : Result BigNumber :=
  match from_number other with
  | Throw e => Throw e
  | Ok o => Ok (a * o)
  end.

(** [a.div(other)]: the quotient rounded toward zero, and a fault when
    [other] is zero. *)
Definition div (a other : BigNumber) : Result BigNumber :=
  if other =? 0 then Throw (mkError "division-by-zero")
  else Ok (Z.quot a other).

(** [BigNumber.from(FixedNumber.from(z).ceiling())].  [FixedNumber.from]
    makes of the whole number [z] a fixed-point number of the format
    fixed128x18, held as the integer [z * 10^18] (in two's complement on 128
    bits when negative); it has no fractional part, so that its ceiling is
    itself; and [BigNumber.from] reads a [FixedNumber] through
    [toHexString()], the hexadecimal of the integer it holds.  What comes
    back is [z] scaled by 10^18, not [z]. *)
Definition throughFixedNumber (z : BigNumber) : Result BigNumber :=
  if 0 <=? z then Ok (z * 10 ^ 18)
  else Ok (2 ^ 128 + z * 10 ^ 18).

(** The doubles 1.0 and 1.1. *)
Definition one : number := S754_finite false 4503599627370496 (-52).
Definition one_point_one : number := S754_finite false 4953959590107546 (-52).

End Ethers.

(* ================================================================= *)
(** ** The data of a feasibility check *)

(** What an argument of type BigNumberish can be when it is only handed on
    to the node. *)
Inductive BigNumberish : Type :=
| OfBigNumber (z : Z)
| OfString (s : string).

(** [EstimateGasParams] *)
Record EstimateGasParams : Type := {
  egp_from : string;
  egp_to : string;
  egp_data : string;
  egp_gasPrice : option string
}.

(** The transaction request handed to [provider.estimateGas]. *)
Record TransactionRequest : Type := {
  tx_from : string;
  tx_to : string;
  tx_data : string;
  tx_gasPrice : option BigNumberish
}.

(** [request] of a relay or deploy request: the hub it names and the rest
    of the signed payload. *)
Record ForwardRequest : Type := {
  relayHub : string;
  payload : string
}.

Record RelayData : Type := {
  gasPrice : Z;
  relayWorker : string;
  callForwarder : string
}.

(** [EnvelopingTypes.RelayRequestStruct] and [DeployRequestStruct]. *)
Record RequestStruct : Type := {
  request : ForwardRequest;
  relayData : RelayData
}.

Record Metadata : Type := {
  relayHubAddress : option string;
  signature : string
}.

(** [DeployTransactionRequest] *)
Record DeployTransactionRequest : Type := {
  relayRequest : RequestStruct;
  metadata : Metadata
}.

Record EnvelopingConfig : Type := {
  cfg_relayHubAddress : string;
  cfg_relayVerifierAddress : string;
  cfg_deployVerifierAddress : string
}.

(** What [validateAcceptRelayCall] resolves to. *)
Record RelayVerdict : Type := {
  verifierAccepted : bool;
  returnValue : string;
  reverted : bool;
  revertedInDestination : bool
}.

(** What [validateAcceptDeployCall] resolves to: three fields. *)
Record DeployVerdict : Type := {
  d_verifierAccepted : bool;
  d_returnValue : string;
  d_reverted : bool
}.

(** The verdicts as the objects they are: their own properties. *)
Inductive JSValue : Type :=
| JSBool (b : bool)
| JSString (s : string).

Definition JSObject : Type := list (string * JSValue).

Fixpoint property (o : JSObject) (name : string) : option JSValue :=
  match o with
  | [] => None
  | (k, v) :: o' => if String.eqb k name then Some v else property o' name
  end.

Definition relayVerdictObject (v : RelayVerdict) : JSObject :=
  [ ("verifierAccepted", JSBool (verifierAccepted v));
    ("reverted", JSBool (reverted v));
    ("returnValue", JSString (returnValue v));
    ("revertedInDestination", JSBool (revertedInDestination v)) ].

Definition deployVerdictObject (v : DeployVerdict) : JSObject :=
  [ ("verifierAccepted", JSBool (d_verifierAccepted v));
    ("reverted", JSBool (d_reverted v));
    ("returnValue", JSString (d_returnValue v)) ].

(* ================================================================= *)
(** ** The gateway and the calls made to it *)

Module Node.

(** A call that reaches the node. *)
Inductive Call : Type :=
| estimateGas (tx : TransactionRequest)
| getBalance (address : string)
| versionHub (hub : string)
| relayVerifier_verifyRelayedCall
    (verifier worker : string) (r : RequestStruct) (sig : string)
| deployVerifier_verifyRelayedCall
    (verifier worker : string) (r : RequestStruct) (sig : string)
| relayHub_relayCall
    (hub worker : string) (r : RequestStruct) (sig : string) (price limit : Z)
| relayHub_deployCall
    (hub worker : string) (r : RequestStruct) (sig : string) (price limit : Z)
| relayHub_estimateGas_deployCall
    (hub worker : string) (r : RequestStruct) (sig : string) (price : Z).

(** The two dry runs of a feasibility check: the verifier's acceptance and
    the hub's execution. *)
Definition isSimulation (c : Call) : bool :=
  match c with
  | relayVerifier_verifyRelayedCall _ _ _ _
  | deployVerifier_verifyRelayedCall _ _ _ _
  | relayHub_relayCall _ _ _ _ _ _
  | relayHub_deployCall _ _ _ _ _ _ => true
  | _ => false
  end.

End Node.

(** A transaction response, of which the source reads the hash. *)
Record ContractTransaction : Type := { hash : string }.

(** [!res] is [negb (isTruthy res)]: a transaction response is an object,
    and an object is truthy. *)
Definition isTruthy (res : ContractTransaction) : bool := true.

(** What the node answers.  [relayCall] and [deployCall] are sending
    methods of the hub contract: each resolves to the response of the
    transaction, not to the value the contract function returns. *)
Record Gateway : Type := {
  gw_estimateGas : TransactionRequest -> Result Z;
  gw_getBalance : string -> Result Z;
  gw_versionHub : string -> Result string;
  gw_relayVerifier_verifyRelayedCall :
    string -> string -> RequestStruct -> string -> Result unit;
  gw_deployVerifier_verifyRelayedCall :
    string -> string -> RequestStruct -> string -> Result unit;
  gw_relayCall :
    string -> string -> RequestStruct -> string -> Z -> Z -> Result ContractTransaction;
  gw_deployCall :
    string -> string -> RequestStruct -> string -> Z -> Z -> Result ContractTransaction;
  gw_estimateGas_deployCall :
    string -> string -> RequestStruct -> string -> Z -> Result Z
}.

(* ================================================================= *)
(** ** ContractInteractor *)

Module ContractInteractor.

Import Ethers.

Record t : Type := mk {
  versionManager : VersionsManager.t;
  config : EnvelopingConfig;
  provider : Gateway
}.

(** The static field [instance] and the calls made so far. *)
Record Heap : Type := mkHeap {
  instance : option t;
  calls : list Node.Call
}.

Definition emptyHeap : Heap := mkHeap None [].

(** An asynchronous method: it runs on the heap and resolves or rejects. *)
Definition Async (A : Type) : Type := Heap -> Result A * Heap.

Definition resolve {A : Type} (a : A) : Async A := fun h => (Ok a, h).

Definition settle {A : Type} (r : Result A) : Async A := fun h => (r, h).

Definition await {A B : Type} (m : Async A) (k : A -> Async B) : Async B :=
  fun h =>
    match m h with
    | (Ok a, h') => k a h'
    | (Throw e, h') => (Throw e, h')
    end.

(** [try { await m } catch (e) { ... }]: the outcome of [m], handed to the
    continuation instead of thrown. *)
Definition attempt {A : Type} (m : Async A) : Async (Result A) :=
  fun h => let (r, h') := m h in (Ok r, h').

(** A call to the node: it is recorded, then answered. *)
Definition perform {A : Type} (c : Node.Call) (answer : Result A) : Async A :=
  fun h => (answer, mkHeap (instance h) (calls h ++ [c])).

Definition readInstance : Async (option t) := fun h => (Ok (instance h), h).

Definition writeInstance (i : t) : Async unit :=
  fun h => (Ok tt, mkHeap (Some i) (calls h)).

Notation "x <- m ;; k" := (await m (fun x => k))
  (at level 61, m at next level, right associativity).

(** [provider.getSigner(address)] *)
Record JsonRpcSigner : Type := { _address : string }.

Definition VERSION : string := "2.0.1".

Definition AddressZero : string := "0x0000000000000000000000000000000000000000".

(** An address that is undefined or empty is falsy. *)
Definition undefinedAddress (a : option string) : bool :=
  match a with
  | None => true
  | Some s => JS.isEmpty s || String.eqb s AddressZero
  end.

Section Methods.

(** [./constants] is not among the sources: its two constants are
    parameters.  So are the ABI encoder, the address normalisation of
    [getSigner], and the passage of ethers from a [BigNumber] through
    [FixedNumber.from(..).ceiling()] back to a [BigNumber]: the methods are
    written for any such passage, and that of ethers is
    [Ethers.throughFixedNumber]. *)
Variable ESTIMATED_GAS_CORRECTION_FACTOR : number.
Variable INTERNAL_TRANSACTION_ESTIMATE_CORRECTION : Z.
Variable encodeFunctionData : string -> RequestStruct -> string -> string.
Variable getAddress : string -> string.
Variable fixedCeiling : BigNumber -> Result BigNumber.

Definition getSigner (address : string) : JsonRpcSigner :=
  {| _address := getAddress address |}.

(** The constructor.  (The signer is only handed on to the contract
    factories and is left out.) *)
Definition new (provider : Gateway) (config : EnvelopingConfig) : Result t :=
  match VersionsManager.new VERSION with
  | Throw e => Throw e
  | Ok vm => Ok (mk vm config provider)
  end.

Definition _validateVersion (this : t) (version : string) : Result unit :=
  match VersionsManager.isMinorSameOrNewer (versionManager this) version with
  | Throw e => Throw e
  | Ok isNewer =>
      if negb isNewer
      then Throw (mkError
             ("Provided Hub version(" ++ version
              ++ ") is not supported by the current interactor("
              ++ VersionsManager.componentVersion (versionManager this) ++ ")"))
      else Ok tt
  end.

(** [ContractInteractor.getInstance]: the static field is assigned
    before the hub version is read and validated. *)
Definition getInstance (provider : Gateway) (config : EnvelopingConfig)
  : Async t :=
  current <- readInstance ;;
  match current with
  | Some i => resolve i
  | None =>
      i <- settle (new provider config) ;;
      _ <- writeInstance i ;;
      let hub := cfg_relayHubAddress (ContractInteractor.config i) in
      version <- perform (Node.versionHub hub)
                         (gw_versionHub (ContractInteractor.provider i) hub) ;;
      _ <- settle (_validateVersion i version) ;;
      resolve i
  end.

Definition provider_estimateGas (this : t) (tx : TransactionRequest) : Async BigNumber :=
  perform (Node.estimateGas tx) (gw_estimateGas (provider this) tx).

Definition getBalance (this : t) (address : string) : Async BigNumber :=
  perform (Node.getBalance address) (gw_getBalance (provider this) address).

Definition estimateRelayTransactionMaxPossibleGas
    (this : t) (relayRequest : RequestStruct) (signature : string)
  : Async BigNumber :=
  let encodedTargetCall := encodeFunctionData "relayCall" relayRequest signature in
  maxPossibleGas <- provider_estimateGas this
    {| tx_from := relayWorker (relayData relayRequest);
       tx_to := relayHub (request relayRequest);
       tx_data := encodedTargetCall;
       tx_gasPrice := Some (OfBigNumber (gasPrice (relayData relayRequest))) |} ;;
  corrected <- settle (mul maxPossibleGas ESTIMATED_GAS_CORRECTION_FACTOR) ;;
  settle (fixedCeiling corrected).

Definition estimateDestinationContractCallGas
    (this : t) (transactionDetails : EstimateGasParams) (addCushion : bool)
  : Async BigNumber :=
  estimated <- provider_estimateGas this
    {| tx_from := egp_from transactionDetails;
       tx_to := egp_to transactionDetails;
       tx_gasPrice := option_map OfString (egp_gasPrice transactionDetails);
       tx_data := egp_data transactionDetails |} ;;
  let internalCallCost :=
    if gt estimated INTERNAL_TRANSACTION_ESTIMATE_CORRECTION
    then sub estimated INTERNAL_TRANSACTION_ESTIMATE_CORRECTION
    else estimated in
  if addCushion
  then settle (mul internalCallCost ESTIMATED_GAS_CORRECTION_FACTOR)
  else resolve internalCallCost.

Definition walletFactoryEstimateGasOfDeployCall
    (this : t) (deployRequest : DeployTransactionRequest) : Async BigNumber :=
  let relayRequest := relayRequest deployRequest in
  if undefinedAddress (relayHubAddress (metadata deployRequest))
  then settle (Throw (mkError "calculateDeployCallGas: RelayHub must be defined"))
  else
    let hub := match relayHubAddress (metadata deployRequest) with
               | Some a => a
               | None => EmptyString
               end in
    let worker := relayWorker (relayData relayRequest) in
    let price := gasPrice (relayData relayRequest) in
    let sig := signature (metadata deployRequest) in
    perform (Node.relayHub_estimateGas_deployCall hub worker relayRequest sig price)
            (gw_estimateGas_deployCall (provider this) hub worker relayRequest sig price).

Definition getMaxViewableDeployGasLimit
    (this : t) (deployRequest : DeployTransactionRequest) : Async BigNumber :=
  let gasPrice := gasPrice (relayData (relayRequest deployRequest)) in
  let relayWorker := relayWorker (relayData (relayRequest deployRequest)) in
  if eq gasPrice 0 then resolve 0
  else
    maxEstimatedGas <- walletFactoryEstimateGasOfDeployCall this deployRequest ;;
    balance <- getBalance this relayWorker ;;
    workerBalanceAsUnitsOfGas <- settle (div balance gasPrice) ;;
    resolve (if gte workerBalanceAsUnitsOfGas maxEstimatedGas
             then maxEstimatedGas else 0).

(** The statement [if (!BigNumber.from(gasPrice).eq(0)) { 0; }] of the
    source evaluates a literal and goes on: it is the [_ <- ...] below. *)
Definition getMaxViewableRelayGasLimit
    (this : t) (relayRequest : RequestStruct) (signature : string)
  : Async BigNumber :=
  let gasPrice := gasPrice (relayData relayRequest) in
  let relayWorker := relayWorker (relayData relayRequest) in
  _ <- (if negb (eq gasPrice 0) then resolve 0 else resolve 0) ;;
  maxEstimatedGas <-
    estimateRelayTransactionMaxPossibleGas this relayRequest signature ;;
  balance <- getBalance this relayWorker ;;
  workerBalanceAsUnitsOfGas <- settle (div balance gasPrice) ;;
  resolve (if gte workerBalanceAsUnitsOfGas maxEstimatedGas
           then maxEstimatedGas else 0).

Definition validateAcceptRelayCall
    (this : t) (relayRequest : RequestStruct) (signature : string)
  : Async RelayVerdict :=
  let hub := cfg_relayHubAddress (config this) in
  externalGasLimit <- getMaxViewableRelayGasLimit this relayRequest signature ;;
  let relayWorkerSigner := getSigner (relayWorker (relayData relayRequest)) in
  if eq externalGasLimit 0
  then resolve
    {| verifierAccepted := false;
       reverted := false;
       returnValue :=
         "relayWorker " ++ relayWorker (relayData relayRequest)
         ++ " does not have enough balance to cover the maximum possible gas for this transaction";
       revertedInDestination := false |}
  else
    let verifier := cfg_relayVerifierAddress (config this) in
    verified <- attempt
      (perform
         (Node.relayVerifier_verifyRelayedCall verifier (_address relayWorkerSigner)
            relayRequest signature)
         (gw_relayVerifier_verifyRelayedCall (provider this) verifier
            (_address relayWorkerSigner) relayRequest signature)) ;;
    match verified with
    | Throw e => resolve
        {| verifierAccepted := false;
           reverted := false;
           returnValue :=
             "view call to 'relayCall' reverted in verifier: " ++ message e;
           revertedInDestination := false |}
    | Ok _ =>
        let price := gasPrice (relayData relayRequest) in
        relayed <- attempt
          (perform
             (Node.relayHub_relayCall hub (_address relayWorkerSigner) relayRequest
                signature price externalGasLimit)
             (gw_relayCall (provider this) hub (_address relayWorkerSigner)
                relayRequest signature price externalGasLimit)) ;;
        match relayed with
        | Ok res => resolve
            {| verifierAccepted := true;
               reverted := false;
               returnValue := EmptyString;
               revertedInDestination := negb (isTruthy res) |}
        | Throw e => resolve
            {| verifierAccepted := true;
               reverted := true;
               returnValue :=
                 "view call to 'relayCall' reverted in client: " ++ message e;
               revertedInDestination := false |}
        end
    end.

Definition validateAcceptDeployCall
    (this : t) (deployRequest : DeployTransactionRequest)
  : Async DeployVerdict :=
  let hub := cfg_relayHubAddress (config this) in
  externalGasLimit <- getMaxViewableDeployGasLimit this deployRequest ;;
  let relayRequest := relayRequest deployRequest in
  let signature := signature (metadata deployRequest) in
  let relayData := relayData relayRequest in
  let relayWorker := getSigner (relayWorker relayData) in
  if eq externalGasLimit 0
  then resolve
    {| d_verifierAccepted := false;
       d_reverted := false;
       d_returnValue :=
         "relayWorker " ++ _address relayWorker
         ++ " does not have enough balance to cover the maximum possible gas for this transaction" |}
  else
    let verifier := cfg_deployVerifierAddress (config this) in
    verified <- attempt
      (perform
         (Node.deployVerifier_verifyRelayedCall verifier (_address relayWorker)
            relayRequest signature)
         (gw_deployVerifier_verifyRelayedCall (provider this) verifier
            (_address relayWorker) relayRequest signature)) ;;
    match verified with
    | Throw e => resolve
        {| d_verifierAccepted := false;
           d_reverted := false;
           d_returnValue :=
             "view call to 'deploy call' reverted in verifier: " ++ message e |}
    | Ok _ =>
        let price := gasPrice relayData in
        deployed <- attempt
          (perform
             (Node.relayHub_deployCall hub (_address relayWorker) relayRequest
                signature price externalGasLimit)
             (gw_deployCall (provider this) hub (_address relayWorker)
                relayRequest signature price externalGasLimit)) ;;
        match deployed with
        | Ok res => resolve
            {| d_verifierAccepted := true;
               d_reverted := false;
               d_returnValue := hash res |}
        | Throw e => resolve
            {| d_verifierAccepted := true;
               d_reverted := true;
               d_returnValue :=
                 "view call to 'deployCall' reverted in client: " ++ message e |}
        end
    end.

End Methods.

End ContractInteractor.

(* ================================================================= *)
(** ** Vocabulary of the statements, and concrete inputs *)

Import Ethers ContractInteractor.

(** *** Versions *)

(** The three numbers of a version are safe integers. *)
Definition inSafeRange (v : Semver.SemVer) : Prop :=
  0 <= Semver.major v <= Semver.MAX_SAFE_INTEGER
  /\ 0 <= Semver.minor v <= Semver.MAX_SAFE_INTEGER
  /\ 0 <= Semver.patch v <= Semver.MAX_SAFE_INTEGER.

(** A pre-release identifier that reads as a number has a value of zero or
    more. *)
Definition wfIdentifier (a : Semver.Identifier) : Prop :=
  Semver.isNumeric a = true -> 0 <= Semver.numberOf a.

Definition wellFormed (v : Semver.SemVer) : Prop :=
  inSafeRange v /\ Forall wfIdentifier (Semver.prerelease v).

(** The first version that a caret range on [o] excludes from above: the
    left-most component of [o] that is not zero is raised by one, what
    follows it is zero, and the tag is the lowest pre-release tag, [-0]. *)
Definition nextBreaking (o : Semver.SemVer) : Semver.SemVer :=
  let M := Semver.major o in
  let m := Semver.minor o in
  let p := Semver.patch o in
  if M =? 0
  then if m =? 0
       then Semver.mkSemVer M m (p + 1) [Semver.NumId 0] []
       else Semver.mkSemVer M (m + 1) 0 [Semver.NumId 0] []
  else Semver.mkSemVer (M + 1) 0 0 [Semver.NumId 0] [].

(** [r] is not older than [o]. *)
Definition notOlder (o r : Semver.SemVer) : Prop := Semver.compare r o <> Lt.

(** [r] is in the caret range derived from [o]: not older than [o], below
    the next breaking version, and, when [r] carries a pre-release tag, [o]
    carries one too on the same [major.minor.patch].  (When the next
    breaking version is not made of safe integers the range cannot be built
    and holds nothing.) *)
Definition inCaretRange (o r : Semver.SemVer) : Prop :=
  inSafeRange (nextBreaking o)
  /\ notOlder o r
  /\ Semver.compare r (nextBreaking o) = Lt
  /\ (Semver.prerelease r = []
      \/ (Semver.prerelease o <> [] /\ Semver.sameTuple o r = true)).

Definition underscore : ascii := "_".
Definition hyphen : ascii := "-".

(** *** Feasibility checks *)


(** The calls in [l] are appended to the trace, and the static field is
    left as it was. *)
Definition grewBy (h h' : Heap) (l : list Node.Call) : Prop :=
  instance h' = instance h /\ calls h' = (calls h ++ l)%list.

(** No call of [l] is a verifier or hub simulation. *)
Definition noSimulation (l : list Node.Call) : Prop :=
  forallb (fun c => negb (Node.isSimulation c)) l = true.

(** The verifier's answer and the hub's answer to the dry runs of a relay
    check, and the two calls as they appear in the trace. *)
Definition verifierAnswer (ga : string -> string) (this : ContractInteractor.t)
    (r : RequestStruct) (sig : string) : Result unit :=
  gw_relayVerifier_verifyRelayedCall (provider this)
    (cfg_relayVerifierAddress (config this))
    (ga (relayWorker (relayData r))) r sig.

Definition hubAnswer (ga : string -> string) (this : ContractInteractor.t)
    (r : RequestStruct) (sig : string) (limit : Z) : Result ContractTransaction :=
  gw_relayCall (provider this) (cfg_relayHubAddress (config this))
    (ga (relayWorker (relayData r))) r sig (gasPrice (relayData r)) limit.

Definition verifierCall (ga : string -> string) (this : ContractInteractor.t)
    (r : RequestStruct) (sig : string) : Node.Call :=
  Node.relayVerifier_verifyRelayedCall (cfg_relayVerifierAddress (config this))
    (ga (relayWorker (relayData r))) r sig.

Definition hubCall (ga : string -> string) (this : ContractInteractor.t)
    (r : RequestStruct) (sig : string) (limit : Z) : Node.Call :=
  Node.relayHub_relayCall (cfg_relayHubAddress (config this))
    (ga (relayWorker (relayData r))) r sig (gasPrice (relayData r)) limit.

Definition insufficientBalance : string := "does not have enough balance".

(** An ABI encoder and the identity on addresses: the parameters of the
    concrete runs below, whose passage through [FixedNumber] is
    [throughFixedNumber]. *)
Definition encodeTag (name : string) (_ : RequestStruct) (_ : string) : string := name.

Definition sameAddress (a : string) : string := a.

(** A node that gives the same answers whatever it is asked. *)
Definition constantNode
    (estimate balance : Result Z) (version : Result string)
    (verifier : Result unit) (relayed : Result ContractTransaction)
    (deployed : Result ContractTransaction) : Gateway :=
  {| gw_estimateGas := fun _ => estimate;
     gw_getBalance := fun _ => balance;
     gw_versionHub := fun _ => version;
     gw_relayVerifier_verifyRelayedCall := fun _ _ _ _ => verifier;
     gw_deployVerifier_verifyRelayedCall := fun _ _ _ _ => verifier;
     gw_relayCall := fun _ _ _ _ _ _ => relayed;
     gw_deployCall := fun _ _ _ _ _ _ => deployed;
     gw_estimateGas_deployCall := fun _ _ _ _ _ => estimate |}.

Definition hubAddress : string := "0x00000000000000000000000000000000000000AA".

Definition someConfig : EnvelopingConfig :=
  {| cfg_relayHubAddress := hubAddress;
     cfg_relayVerifierAddress := "0x00000000000000000000000000000000000000BB";
     cfg_deployVerifierAddress := "0x00000000000000000000000000000000000000CC" |}.

Definition interactorOn (node : Gateway) : ContractInteractor.t :=
  ContractInteractor.mk (VersionsManager.mk VERSION) someConfig node.

Definition requestAt (price : Z) : RequestStruct :=
  {| request := {| relayHub := hubAddress; payload := "0xdeadbeef" |};
     relayData := {| gasPrice := price;
                     relayWorker := "0x00000000000000000000000000000000000000DD";
                     callForwarder := "0x00000000000000000000000000000000000000EE" |} |}.

Definition deployAt (price : Z) : DeployTransactionRequest :=
  {| relayRequest := requestAt price;
     metadata := {| relayHubAddress := Some hubAddress; signature := "0x5161" |} |}.

Definition detailsOf (price : string) : EstimateGasParams :=
  {| egp_from := "0x00000000000000000000000000000000000000DD";
     egp_to := "0x00000000000000000000000000000000000000FF";
     egp_data := "0xdeadbeef";
     egp_gasPrice := Some price |}.

Definition notTheOwner : Error := mkError "revert Not the owner".

Definition someTransaction : ContractTransaction := {| hash := "0xabc" |}.

(** A worker funded for the relay path too, where the estimate comes back
    scaled by 10^18: a raw estimate of 100000, a balance of 10^33. *)
Definition richBalance : Z := 10 ^ 33.

Definition fundedNode
    (verifier : Result unit) (relayed : Result ContractTransaction) : Gateway :=
  constantNode (Ok 100000) (Ok richBalance) (Ok "2.0.1")
               verifier relayed (Ok someTransaction).

(** A worker without funds. *)
Definition brokeNode : Gateway :=
  constantNode (Ok 100000) (Ok 0) (Ok "2.0.1") (Ok tt) (Ok someTransaction) (Ok someTransaction).

(** A hub of another major version. *)
Definition oldHubNode : Gateway :=
  constantNode (Ok 100000) (Ok richBalance) (Ok "1.0.0")
               (Ok tt) (Ok someTransaction) (Ok someTransaction).

(** The runs of the concrete checks: correction factor 1.0, a gas price of
    [price], an empty trace to start from. *)
Definition theSignature : string := "0x5161".

Definition relayBudgetOn (node : Gateway) (price : Z) : Result BigNumber * Heap :=
  getMaxViewableRelayGasLimit one encodeTag throughFixedNumber
    (interactorOn node) (requestAt price) theSignature emptyHeap.

Definition relayCheckOn (node : Gateway) (price : Z) : Result RelayVerdict * Heap :=
  validateAcceptRelayCall one encodeTag sameAddress throughFixedNumber
    (interactorOn node) (requestAt price) theSignature emptyHeap.

Definition deployBudgetOn (node : Gateway) (price : Z) : Result BigNumber * Heap :=
  getMaxViewableDeployGasLimit (interactorOn node) (deployAt price) emptyHeap.

Definition deployCheckOn (node : Gateway) (price : Z) : Result DeployVerdict * Heap :=
  validateAcceptDeployCall sameAddress (interactorOn node) (deployAt price) emptyHeap.

Definition gwei : Z := 1000000000.

(** A worker whose balance buys exactly the estimate of the deploy path:
    100 units of gas at a price of 10, with a balance of 1000. *)
Definition boundaryNode : Gateway :=
  constantNode (Ok 100) (Ok 1000) (Ok "2.0.1") (Ok tt) (Ok someTransaction) (Ok someTransaction).

(** The same boundary on the relay path, where the estimate of 100 comes
    back as 100 * 10^18: a price of 10 and a balance of 10^21. *)
Definition relayBoundaryNode : Gateway :=
  constantNode (Ok 100) (Ok (10 ^ 21)) (Ok "2.0.1")
               (Ok tt) (Ok someTransaction) (Ok someTransaction).

(** *** The deploy check *)

(** The verifier's answer and the hub's answer to the dry runs of a deploy
    check, and the two calls as they appear in the trace. *)
Definition deployVerifierAnswer (ga : string -> string) (this : ContractInteractor.t)
    (d : DeployTransactionRequest) : Result unit :=
  gw_deployVerifier_verifyRelayedCall (provider this)
    (cfg_deployVerifierAddress (config this))
    (ga (relayWorker (relayData (relayRequest d))))
    (relayRequest d) (signature (metadata d)).

Definition deployHubAnswer (ga : string -> string) (this : ContractInteractor.t)
    (d : DeployTransactionRequest) (limit : Z) : Result ContractTransaction :=
  gw_deployCall (provider this) (cfg_relayHubAddress (config this))
    (ga (relayWorker (relayData (relayRequest d))))
    (relayRequest d) (signature (metadata d))
    (gasPrice (relayData (relayRequest d))) limit.

Definition deployVerifierCall (ga : string -> string) (this : ContractInteractor.t)
    (d : DeployTransactionRequest) : Node.Call :=
  Node.deployVerifier_verifyRelayedCall (cfg_deployVerifierAddress (config this))
    (ga (relayWorker (relayData (relayRequest d))))
    (relayRequest d) (signature (metadata d)).

Definition deployHubCall (ga : string -> string) (this : ContractInteractor.t)
    (d : DeployTransactionRequest) (limit : Z) : Node.Call :=
  Node.relayHub_deployCall (cfg_relayHubAddress (config this))
    (ga (relayWorker (relayData (relayRequest d))))
    (relayRequest d) (signature (metadata d))
    (gasPrice (relayData (relayRequest d))) limit.

Definition hubMustBeDefined : Error :=
  mkError "calculateDeployCallGas: RelayHub must be defined".

(** The estimate the deploy path asks the hub for. *)
Definition deployEstimateCall (d : DeployTransactionRequest) (hub : string) : Node.Call :=
  Node.relayHub_estimateGas_deployCall hub
    (relayWorker (relayData (relayRequest d))) (relayRequest d)
    (signature (metadata d)) (gasPrice (relayData (relayRequest d))).

(** The estimate the relay path asks the node for. *)
Definition relayEstimateRequest
    (enc : string -> RequestStruct -> string -> string)
    (r : RequestStruct) (sig : string) : TransactionRequest :=
  {| tx_from := relayWorker (relayData r);
     tx_to := relayHub (request r);
     tx_data := enc "relayCall" r sig;
     tx_gasPrice := Some (OfBigNumber (gasPrice (relayData r))) |}.

(** A deploy request that names no hub. *)
Definition deployWithoutHub (price : Z) : DeployTransactionRequest :=
  {| relayRequest := requestAt price;
     metadata := {| relayHubAddress := None; signature := "0x5161" |} |}.

(** A node that cannot be reached when asked for the hub's version. *)
Definition unreachableNode : Gateway :=
  constantNode (Ok 100000) (Ok richBalance)
               (Throw (mkError "could not detect network"))
               (Ok tt) (Ok someTransaction) (Ok someTransaction).

(** *** The interactor's own version *)

(** The error of [_validateVersion]. *)
Definition unsupportedHub (version own : string) : Error :=
  mkError ("Provided Hub version(" ++ version
           ++ ") is not supported by the current interactor(" ++ own ++ ")").

(** [VERSION], parsed. *)
Definition ownVersion : Semver.SemVer := Semver.mkSemVer 2 0 1 [] [].

(** The largest major version there is. *)
Definition lastMajor : string := "9007199254740991.0.0".

(* ================================================================= *)
(** ** The other accessors of the interactor

    The methods that read relay managers, past events and gas estimates
    through the hub and the wallet factory.  They leave the static field
    alone, so that their state is the trace of the calls they make; the
    contracts' answers are a record of their own. *)

Module Accessors.

(** [IRelayHub.RelayManagerDataStruct] *)
Record RelayManagerData : Type := {
  manager : string;
  currentlyStaked : bool;
  registered : bool;
  url : string
}.

Record TypedEvent : Type := {
  event : string;
  blockNumber : Z
}.

Inductive Call : Type :=
| relayHub_getRelayInfo (managerAddress : string)
| relayHub_queryFilter (name : string) (fromBlock toBlock : option Z)
| relayHub_estimateGas_relayCall
    (hub worker : string) (r : RequestStruct) (sig : string) (price : Z)
| factory_callStatic_relayedUserSmartWalletCreation
    (factory from : string) (r : RequestStruct) (suffixData sig : string) (price : Z)
| factory_estimateGas_relayedUserSmartWalletCreation
    (factory from : string) (r : RequestStruct) (suffixData sig : string) (price : Z).

Record Contracts : Type := {
  hub_getRelayInfo : string -> Result RelayManagerData;
  hub_queryFilter : string -> option Z -> option Z -> Result (list TypedEvent);
  hub_estimateGas_relayCall :
    string -> string -> RequestStruct -> string -> Z -> Result Z;
  factory_callStatic :
    string -> string -> RequestStruct -> string -> string -> Z -> Result unit;
  factory_estimateGas :
    string -> string -> RequestStruct -> string -> string -> Z -> Result Z
}.

Definition Reading (A : Type) : Type := list Call -> Result A * list Call.

Definition done {A : Type} (a : A) : Reading A := fun t => (Ok a, t).

Definition rejected {A : Type} (e : Error) : Reading A := fun t => (Throw e, t).

Definition andThen {A B : Type} (m : Reading A) (k : A -> Reading B) : Reading B :=
  fun t =>
    match m t with
    | (Ok a, t') => k a t'
    | (Throw e, t') => (Throw e, t')
    end.

(** A call to a contract: it is recorded, then answered. *)
Definition ask {A : Type} (c : Call) (answer : Result A) : Reading A :=
  fun t => (answer, (t ++ [c])%list).

(** The values of the results, when all of them are values; the first
    error otherwise. *)
Fixpoint collect {A : Type} (rs : list (Result A)) : Result (list A) :=
  match rs with
  | [] => Ok []
  | Throw e :: _ => Throw e
  | Ok a :: rs' =>
      match collect rs' with
      | Ok l => Ok (a :: l)
      | Throw e => Throw e
      end
  end.

(** [await Promise.all(xs.map(x => call(x)))]: the calls are all started, in
    the order of [xs], before any is awaited.  (Which rejection wins when
    several calls reject depends on their timing; here it is the first in
    the order of [xs].) *)
Definition promiseAll {A : Type} (started : list (Call * Result A))
  : Reading (list A) :=
  fun t => (collect (map snd started), (t ++ map fst started)%list).

Definition DEFAULT_MANAGER_EVENTS : list string :=
  [ "RelayServerRegistered";
    "RelayWorkersAdded";
    "TransactionRelayed";
    "TransactionRelayedButRevertedByRecipient" ].

Section Methods.

Variable ESTIMATED_GAS_CORRECTION_FACTOR : Ethers.number.
Variable fixedCeiling : Ethers.BigNumber -> Result Ethers.BigNumber.
Variable contracts : Contracts.

(** [getRelayInfo]: [relayManagers] is the set's elements in the order
    [Array.from] gives them. *)
Definition getRelayInfo (relayManagers : list string)
  : Reading (list RelayManagerData) :=
  let managers := relayManagers in
  let contractCalls :=
    map (fun managerAddress =>
           (relayHub_getRelayInfo managerAddress,
            hub_getRelayInfo contracts managerAddress)) managers in
  promiseAll contractCalls.

Definition getActiveRelayInfo (relayManagers : list string)
  : Reading (list RelayManagerData) :=
  andThen (getRelayInfo relayManagers) (fun results =>
  done (filter (fun relayData => registered relayData && currentlyStaked relayData)
               results)).

(** [getPastEventsForHub]: [names] is [None] when the argument is left
    out. *)
Definition getPastEventsForHub (fromBlock toBlock : option Z)
    (names : option (list string)) : Reading (list (list TypedEvent)) :=
  let names := match names with
               | Some l => l
               | None => DEFAULT_MANAGER_EVENTS
               end in
  promiseAll
    (map (fun name =>
            (relayHub_queryFilter name fromBlock toBlock,
             hub_queryFilter contracts name fromBlock toBlock)) names).

(** [estimateRelayTransactionMaxPossibleGasWithTransactionRequest]; a
    [RelayTransactionRequest] has the shape of a [DeployTransactionRequest]. *)
Definition estimateRelayTransactionMaxPossibleGasWithTransactionRequest
    (req : DeployTransactionRequest) : Reading Ethers.BigNumber :=
  if ContractInteractor.undefinedAddress (relayHubAddress (metadata req))
  then rejected (mkError "calculateDeployCallGas: RelayHub must be defined")
  else
    let hub := match relayHubAddress (metadata req) with
               | Some a => a
               | None => EmptyString
               end in
    let worker := relayWorker (relayData (relayRequest req)) in
    let price := gasPrice (relayData (relayRequest req)) in
    let sig := signature (metadata req) in
    andThen
      (ask (relayHub_estimateGas_relayCall hub worker (relayRequest req) sig price)
           (hub_estimateGas_relayCall contracts hub worker (relayRequest req) sig price))
      (fun maxPossibleGas =>
    andThen (fun t => (Ethers.mul maxPossibleGas ESTIMATED_GAS_CORRECTION_FACTOR, t))
      (fun corrected t => (fixedCeiling corrected, t))).

Definition walletFactoryDeployEstimateGasForInternalCall
    (deployRequest : RequestStruct) (factory suffixData signature : string)
    (testCall : bool) : Reading Ethers.BigNumber :=
  let from := relayHub (request deployRequest) in
  let price := gasPrice (relayData deployRequest) in
  andThen
    (if testCall
     then ask (factory_callStatic_relayedUserSmartWalletCreation
                 factory from deployRequest suffixData signature price)
              (factory_callStatic contracts
                 factory from deployRequest suffixData signature price)
     else done tt)
    (fun _ =>
       ask (factory_estimateGas_relayedUserSmartWalletCreation
              factory from deployRequest suffixData signature price)
           (factory_estimateGas contracts
              factory from deployRequest suffixData signature price)).

End Methods.

End Accessors.

(** Two relay managers, one of them active, and contracts that know
    them. *)
Definition activeManager : Accessors.RelayManagerData :=
  {| Accessors.manager := "0x00000000000000000000000000000000000000A1";
     Accessors.currentlyStaked := true;
     Accessors.registered := true;
     Accessors.url := "https://relay.one" |}.

Definition unstakedManager : Accessors.RelayManagerData :=
  {| Accessors.manager := "0x00000000000000000000000000000000000000A2";
     Accessors.currentlyStaked := false;
     Accessors.registered := true;
     Accessors.url := "https://relay.two" |}.

Definition someContracts (static : Result unit) : Accessors.Contracts :=
  {| Accessors.hub_getRelayInfo := fun m =>
       if String.eqb m (Accessors.manager activeManager) then Ok activeManager
       else if String.eqb m (Accessors.manager unstakedManager) then Ok unstakedManager
       else Throw (mkError "unknown manager");
     Accessors.hub_queryFilter := fun _ _ _ => Ok [];
     Accessors.hub_estimateGas_relayCall := fun _ _ _ _ _ => Ok 100000;
     Accessors.factory_callStatic := fun _ _ _ _ _ _ => static;
     Accessors.factory_estimateGas := fun _ _ _ _ _ _ => Ok 150000 |}.

(** A funded worker whose deployment reverts in the hub. *)
Definition revertingDeployNode : Gateway :=
  constantNode (Ok 100000) (Ok richBalance) (Ok "2.0.1")
               (Ok tt) (Ok someTransaction) (Throw (mkError "revert")).

(** A node that answers no gas estimate. *)
Definition timedOut : Error := mkError "timeout".

Definition deafNode : Gateway :=
  constantNode (Throw timedOut) (Ok richBalance) (Ok "2.0.1")
               (Ok tt) (Ok someTransaction) (Ok someTransaction).

(* ================================================================= *)
(** ** The asynchronous plumbing *)

Lemma await_resolved {A B : Type} (m : Async A) (k : A -> Async B) h a h' :
  m h = (Ok a, h') -> await m k h = k a h'.
Proof. intros H. unfold await. now rewrite H. Qed.

Lemma await_rejected {A B : Type} (m : Async A) (k : A -> Async B) h e h' :
  m h = (Throw e, h') -> await m k h = (Throw e, h').
Proof. intros H. unfold await. now rewrite H. Qed.

Lemma grewBy_nil h : grewBy h h [].
Proof. split; [reflexivity | now rewrite app_nil_r]. Qed.

Lemma grewBy_perform {A : Type} (c : Node.Call) (answer : Result A) h :
  perform c answer h = (answer, mkHeap (instance h) (calls h ++ [c])%list).
Proof. reflexivity. Qed.

Lemma append_assoc3 (a b c : string) : (a ++ b) ++ c = a ++ (b ++ c).
Proof. induction a as [|x a IH]; simpl; [reflexivity | now rewrite IH]. Qed.

Lemma includes_suffix (prefix t : string) : JS.includes (prefix ++ t) t.
Proof.
  exists prefix, EmptyString. f_equal.
  induction t as [|x t IH]; simpl; [reflexivity | now rewrite <- IH].
Qed.

(** The budget computations call the node for estimates and balances only. *)
Lemma relayBudget_trace F enc fx this r sig h out h' :
  getMaxViewableRelayGasLimit F enc fx this r sig h = (out, h') ->
  exists l, grewBy h h' l /\ noSimulation l.
Proof.
  unfold getMaxViewableRelayGasLimit, estimateRelayTransactionMaxPossibleGas,
    provider_estimateGas, getBalance, await, perform, settle, resolve.
  destruct (Ethers.eq (gasPrice (relayData r)) 0); cbn [negb];
  destruct (gw_estimateGas _ _) as [raw|e]; intros H;
  try (injection H as <- <-; eexists; split; [split; cbn; reflexivity | reflexivity]);
  destruct (mul raw F) as [c|e];
  try (injection H as <- <-; eexists; split; [split; cbn; reflexivity | reflexivity]);
  destruct (fx c) as [g|e];
  try (injection H as <- <-; eexists; split; [split; cbn; reflexivity | reflexivity]);
  cbn [calls instance] in H;
  destruct (gw_getBalance _ _) as [b|e];
  try (injection H as <- <-; eexists; split;
       [split; cbn; [reflexivity | now rewrite <- app_assoc] | reflexivity]);
  destruct (div b _) as [u|e];
  injection H as <- <-; eexists; split;
    try (split; cbn; [reflexivity | now rewrite <- app_assoc]); reflexivity.
Qed.

Lemma deployBudget_trace this d h out h' :
  getMaxViewableDeployGasLimit this d h = (out, h') ->
  exists l, grewBy h h' l /\ noSimulation l.
Proof.
  unfold getMaxViewableDeployGasLimit, walletFactoryEstimateGasOfDeployCall,
    getBalance, await, perform, settle, resolve.
  destruct (Ethers.eq _ 0).
  - intros H; injection H as <- <-. exists []. split; [apply grewBy_nil | reflexivity].
  - destruct (undefinedAddress _).
    + intros H; injection H as <- <-. exists []. split; [apply grewBy_nil | reflexivity].
    + destruct (gw_estimateGas_deployCall _ _ _ _ _ _) as [g|e]; intros H;
      try (injection H as <- <-; eexists; split; [split; cbn; reflexivity | reflexivity]);
      cbn [calls instance] in H;
      destruct (gw_getBalance _ _) as [b|e];
      try (injection H as <- <-; eexists; split;
           [split; cbn; [reflexivity | now rewrite <- app_assoc] | reflexivity]);
      destruct (div b _) as [u|e];
      injection H as <- <-; eexists; split;
        try (split; cbn; [reflexivity | now rewrite <- app_assoc]); reflexivity.
Qed.

(* ================================================================= *)
(** ** The feasibility check *)

Section FeasibilityCheck.

Variable F : number.
Variable enc : string -> RequestStruct -> string -> string.
Variable ga : string -> string.
Variable fx : BigNumber -> Result BigNumber.
Variable this : ContractInteractor.t.


Lemma relayCheck_step r sig h g h1 :
  getMaxViewableRelayGasLimit F enc fx this r sig h = (Ok g, h1) -> g <> 0 ->
  validateAcceptRelayCall F enc ga fx this r sig h =
    match verifierAnswer ga this r sig with
    | Throw e =>
        (Ok {| verifierAccepted := false; reverted := false;
               returnValue := "view call to 'relayCall' reverted in verifier: " ++ message e;
               revertedInDestination := false |},
         mkHeap (instance h1) (calls h1 ++ [verifierCall ga this r sig]))
    | Ok _ =>
        let h2 := mkHeap (instance h1)
                    ((calls h1 ++ [verifierCall ga this r sig]) ++ [hubCall ga this r sig g]) in
        match hubAnswer ga this r sig g with
        | Ok res =>
            (Ok {| verifierAccepted := true; reverted := false;
                   returnValue := EmptyString;
                   revertedInDestination := negb (isTruthy res) |}, h2)
        | Throw e =>
            (Ok {| verifierAccepted := true; reverted := true;
                   returnValue := "view call to 'relayCall' reverted in client: " ++ message e;
                   revertedInDestination := false |}, h2)
        end
    end.
Proof.
  intros Hb Hg. unfold validateAcceptRelayCall.
  rewrite (await_resolved _ _ _ Hb).
  assert (Hz : Ethers.eq g 0 = false) by (unfold Ethers.eq; now apply Z.eqb_neq).
  rewrite Hz. unfold await, attempt, perform, resolve, getSigner,
    verifierAnswer, hubAnswer, verifierCall, hubCall. cbn [_address instance calls].
  destruct (gw_relayVerifier_verifyRelayedCall _ _ _ _ _) as [u|e]; [|reflexivity].
  destruct (gw_relayCall _ _ _ _ _ _ _) as [res|e]; reflexivity.
Qed.

(** C1 (as amended).  When the maximum viewable gas limit is computed to be
    zero, the relay check resolves to the verdict with [verifierAccepted],
    [reverted] and [revertedInDestination] all false and a detail about the
    worker's balance, and the deploy check to the verdict with
    [verifierAccepted] and [reverted] false, a detail about the balance and
    no [revertedInDestination] property at all; in both, the trace is the one
    the budget computation left, which holds no verifier or hub simulation. *)
Theorem zero_budget_is_terminal :
  (forall r sig h h',
      getMaxViewableRelayGasLimit F enc fx this r sig h = (Ok 0, h') ->
      exists v,
        validateAcceptRelayCall F enc ga fx this r sig h = (Ok v, h')
        /\ verifierAccepted v = false /\ reverted v = false
        /\ revertedInDestination v = false
        /\ JS.includes (returnValue v) insufficientBalance
        /\ exists l, grewBy h h' l /\ noSimulation l)
  /\ (forall d h h',
      getMaxViewableDeployGasLimit this d h = (Ok 0, h') ->
      exists v,
        validateAcceptDeployCall ga this d h = (Ok v, h')
        /\ d_verifierAccepted v = false /\ d_reverted v = false
        /\ property (deployVerdictObject v) "revertedInDestination" = None
        /\ JS.includes (d_returnValue v) insufficientBalance
        /\ exists l, grewBy h h' l /\ noSimulation l).
Proof.
  split.
  - intros r sig h h' Hb. eexists. split.
    + unfold validateAcceptRelayCall.
      rewrite (await_resolved _ _ _ Hb). reflexivity.
    + cbn [verifierAccepted reverted revertedInDestination returnValue].
      repeat split.
      * exists ("relayWorker " ++ relayWorker (relayData r) ++ " "),
          " to cover the maximum possible gas for this transaction".
        unfold insufficientBalance. now rewrite !append_assoc3.
      * exact (relayBudget_trace _ _ _ _ _ _ _ Hb).
  - intros d h h' Hb. eexists. split.
    + unfold validateAcceptDeployCall.
      rewrite (await_resolved _ _ _ Hb). reflexivity.
    + cbn [d_verifierAccepted d_reverted d_returnValue].
      repeat split.
      * exists ("relayWorker " ++ ga (relayWorker (relayData (relayRequest d))) ++ " "),
          " to cover the maximum possible gas for this transaction".
        unfold insufficientBalance, getSigner. cbn [_address].
        now rewrite !append_assoc3.
      * exact (deployBudget_trace _ _ _ Hb).
Qed.

(** C2.  In a relay check whose gas budget is not zero: if the verifier
    simulation throws, the check resolves (it does not reject) to a verdict
    with [verifierAccepted] and [reverted] false whose detail contains the
    thrown message, and the hub is not called; if the verifier simulation
    succeeds and the hub simulation throws, the check resolves to a verdict
    with [verifierAccepted] and [reverted] true whose detail contains the
    thrown message. *)
Theorem simulation_failures_become_verdicts r sig h g h1 :
  getMaxViewableRelayGasLimit F enc fx this r sig h = (Ok g, h1) -> g <> 0 ->
  (forall e, verifierAnswer ga this r sig = Throw e ->
     exists v,
       validateAcceptRelayCall F enc ga fx this r sig h
         = (Ok v, mkHeap (instance h1) (calls h1 ++ [verifierCall ga this r sig]))
       /\ verifierAccepted v = false /\ reverted v = false
       /\ JS.includes (returnValue v) (message e))
  /\ (forall e, verifierAnswer ga this r sig = Ok tt -> hubAnswer ga this r sig g = Throw e ->
     exists v h2,
       validateAcceptRelayCall F enc ga fx this r sig h = (Ok v, h2)
       /\ verifierAccepted v = true /\ reverted v = true
       /\ JS.includes (returnValue v) (message e)).
Proof.
  intros Hb Hg. rewrite (relayCheck_step _ _ _ Hb Hg). split.
  - intros e ->. eexists. split; [reflexivity|].
    cbn [verifierAccepted reverted returnValue]. repeat split.
    apply includes_suffix.
  - intros e -> ->. do 2 eexists. split; [reflexivity|].
    cbn [verifierAccepted reverted returnValue]. repeat split.
    apply includes_suffix.
Qed.

(** C5, on the code.  The relay check never reports a failure of the
    destination call.  What the hub's [relayCall] resolves to is the response
    of the transaction, an object, and [!res] of an object is false: in every
    verdict the check resolves to, [revertedInDestination] is false, and when
    the verifier accepts and [relayCall] resolves, whatever happened in the
    destination, the verdict is [verifierAccepted] true, [reverted] false,
    [revertedInDestination] false. *)
Theorem destination_failure_is_never_reported r sig h :
  (forall v h',
      validateAcceptRelayCall F enc ga fx this r sig h = (Ok v, h') ->
      revertedInDestination v = false)
  /\ (forall g h1 res,
      getMaxViewableRelayGasLimit F enc fx this r sig h = (Ok g, h1) -> g <> 0 ->
      verifierAnswer ga this r sig = Ok tt ->
      hubAnswer ga this r sig g = Ok res ->
      exists h2,
        validateAcceptRelayCall F enc ga fx this r sig h =
          (Ok {| verifierAccepted := true; reverted := false;
                 returnValue := EmptyString; revertedInDestination := false |}, h2)).
Proof.
  split.
  - intros v h'.
    destruct (getMaxViewableRelayGasLimit F enc fx this r sig h) as [[g|e0] h0] eqn:Hb.
    + destruct (Z.eq_dec g 0) as [->|Hg].
      * unfold validateAcceptRelayCall. rewrite (await_resolved _ _ _ Hb).
        cbn [Ethers.eq Z.eqb]. unfold resolve. intros [= <- _]. reflexivity.
      * rewrite (relayCheck_step _ _ _ Hb Hg).
        destruct (verifierAnswer ga this r sig); [|intros [= <- _]; reflexivity].
        cbv zeta. destruct (hubAnswer ga this r sig g); intros [= <- _]; reflexivity.
    + unfold validateAcceptRelayCall. rewrite (await_rejected _ _ _ Hb). discriminate.
  - intros g h1 res Hb Hg Hv Hh. rewrite (relayCheck_step _ _ _ Hb Hg), Hv, Hh.
    eexists. reflexivity.
Qed.

End FeasibilityCheck.

(* ================================================================= *)
(** ** Gas budgets *)

Section GasBudget.

Variable F : number.
Variable C : Z.
Variable enc : string -> RequestStruct -> string -> string.
Variable fx : BigNumber -> Result BigNumber.
Variable this : ContractInteractor.t.


Lemma quot_is_floor b p : 0 <= b -> 0 < p -> Z.quot b p = b / p.
Proof. intros Hb Hp. apply Z.quot_div_nonneg; lia. Qed.

(** The deploy path leaves at once when the gas price is zero. *)
Lemma deployBudget_zero_price d h :
  gasPrice (relayData (relayRequest d)) = 0 ->
  getMaxViewableDeployGasLimit this d h = (Ok 0, h).
Proof. intros Hp. unfold getMaxViewableDeployGasLimit. now rewrite Hp. Qed.

(** C3, on the code.  With a gas price of zero the relay path does not leave
    early: it asks the node for a gas estimate (and, when the estimate comes
    back, for the worker's balance) and then rejects; it never resolves to
    zero. *)
Theorem relayBudget_zero_price_calls_node r sig h :
  gasPrice (relayData r) = 0 ->
  exists e l,
    getMaxViewableRelayGasLimit F enc fx this r sig h
      = (Throw e,
         mkHeap (instance h)
           (calls h ++
            Node.estimateGas
              {| tx_from := relayWorker (relayData r);
                 tx_to := relayHub (request r);
                 tx_data := enc "relayCall" r sig;
                 tx_gasPrice := Some (OfBigNumber 0) |} :: l))
    /\ (forall raw g b,
          gw_estimateGas (provider this)
              {| tx_from := relayWorker (relayData r);
                 tx_to := relayHub (request r);
                 tx_data := enc "relayCall" r sig;
                 tx_gasPrice := Some (OfBigNumber 0) |} = Ok raw ->
          mul raw F = Ok g -> fx g = Ok b ->
          l = [Node.getBalance (relayWorker (relayData r))]).
Proof.
  intros Hp.
  unfold getMaxViewableRelayGasLimit, estimateRelayTransactionMaxPossibleGas,
    provider_estimateGas, getBalance, await, perform, settle, resolve.
  rewrite Hp. cbn [Ethers.eq Z.eqb negb calls instance].
  destruct (gw_estimateGas _ _) as [raw|e] eqn:Hest.
  2:{ exists e, []. split; [reflexivity | discriminate]. }
  destruct (mul raw F) as [g|e] eqn:Hmul.
  2:{ exists e, []. split; [reflexivity | intros; congruence]. }
  destruct (fx g) as [b|e] eqn:Hfx.
  2:{ exists e, []. split; [reflexivity | intros; congruence]. }
  destruct (gw_getBalance _ _) as [bal|e].
  - unfold div. cbn [Z.eqb calls instance].
    eexists _, [_]. split; [now rewrite <- app_assoc | reflexivity].
  - cbn [calls instance].
    exists e. eexists [_]. split; [now rewrite <- app_assoc | reflexivity].
Qed.

(** C4.  For a balance [b], a positive gas price [p] and an estimate [e],
    both budget computations resolve to [e] when [floor (b / p) >= e], the
    case of equality included, and to zero otherwise: never to a value
    strictly between zero and the estimate. *)
Theorem budget_is_estimate_or_zero (b p e : Z) :
  0 <= b -> 0 < p ->
  (forall r sig h h1,
      gasPrice (relayData r) = p ->
      estimateRelayTransactionMaxPossibleGas F enc fx this r sig h = (Ok e, h1) ->
      gw_getBalance (provider this) (relayWorker (relayData r)) = Ok b ->
      exists out h2,
        getMaxViewableRelayGasLimit F enc fx this r sig h = (Ok out, h2)
        /\ (e <= b / p -> out = e) /\ (b / p < e -> out = 0)
        /\ (out = e \/ out = 0))
  /\ (forall d h h1,
      gasPrice (relayData (relayRequest d)) = p ->
      walletFactoryEstimateGasOfDeployCall this d h = (Ok e, h1) ->
      gw_getBalance (provider this) (relayWorker (relayData (relayRequest d))) = Ok b ->
      exists out h2,
        getMaxViewableDeployGasLimit this d h = (Ok out, h2)
        /\ (e <= b / p -> out = e) /\ (b / p < e -> out = 0)
        /\ (out = e \/ out = 0)).
Proof.
  intros Hb Hp.
  assert (Hd : div b p = Ok (b / p)).
  { unfold div. destruct (Z.eqb_spec p 0); [lia|]. now rewrite quot_is_floor. }
  assert (Hsel : forall out, out = (if gte (b / p) e then e else 0) ->
            (e <= b / p -> out = e) /\ (b / p < e -> out = 0) /\ (out = e \/ out = 0)).
  { intros out ->. unfold gte. destruct (Z.leb_spec e (b / p)); repeat split; auto; lia. }
  split.
  - intros r sig h h1 Hprice He Hbal.
    exists (if gte (b / p) e then e else 0). eexists. split; [|now apply Hsel].
    unfold getMaxViewableRelayGasLimit. rewrite Hprice.
    unfold await at 1. destruct (negb (Ethers.eq p 0)); unfold resolve at 1;
    rewrite (await_resolved _ _ _ He);
    unfold getBalance, await, perform, settle, resolve; rewrite Hbal, Hd; reflexivity.
  - intros d h h1 Hprice He Hbal.
    exists (if gte (b / p) e then e else 0). eexists. split; [|now apply Hsel].
    unfold getMaxViewableDeployGasLimit. rewrite Hprice.
    assert (Hz : Ethers.eq p 0 = false) by (unfold Ethers.eq; apply Z.eqb_neq; lia).
    rewrite Hz, (await_resolved _ _ _ He).
    unfold getBalance, await, perform, settle, resolve; rewrite Hbal, Hd; reflexivity.
Qed.

(** C6, on the code.  With the correction factor 1.1 no estimate is rounded
    up: whatever raw estimate the node returns, multiplying it by the factor
    is refused, so that the relay estimation rejects, and so does the
    destination-call estimation with its cushion. *)
Theorem fractional_factor_rejects (details : EstimateGasParams) r sig h raw :
  F = one_point_one ->
  gw_estimateGas (provider this)
    {| tx_from := relayWorker (relayData r);
       tx_to := relayHub (request r);
       tx_data := enc "relayCall" r sig;
       tx_gasPrice := Some (OfBigNumber (gasPrice (relayData r))) |} = Ok raw ->
  gw_estimateGas (provider this)
    {| tx_from := egp_from details;
       tx_to := egp_to details;
       tx_data := egp_data details;
       tx_gasPrice := option_map OfString (egp_gasPrice details) |} = Ok raw ->
  (exists h', estimateRelayTransactionMaxPossibleGas F enc fx this r sig h = (Throw (mkError "underflow"), h'))
  /\ (exists h', estimateDestinationContractCallGas F C this details true h
                 = (Throw (mkError "underflow"), h')).
Proof.
  intros -> Hr Hd. split; eexists.
  - unfold estimateRelayTransactionMaxPossibleGas, provider_estimateGas,
      await, perform, settle. rewrite Hr. reflexivity.
  - unfold estimateDestinationContractCallGas, provider_estimateGas,
      await, perform, settle. rewrite Hd.
    destruct (gt raw C); reflexivity.
Qed.

(** With the neutral factor 1.0 the cushion of the destination-call
    estimation changes nothing. *)
Lemma neutral_cushion (details : EstimateGasParams) h :
  F = one ->
  estimateDestinationContractCallGas F C this details true h
  = estimateDestinationContractCallGas F C this details false h.
Proof.
  intros ->. unfold estimateDestinationContractCallGas, await.
  destruct (provider_estimateGas _ _ _) as [[raw|e] h']; [|reflexivity].
  unfold settle, resolve, mul.
  change (from_number one) with (Ok (A := BigNumber) 1).
  cbv beta iota zeta. now rewrite Z.mul_1_r.
Qed.

(** C7.  With the cushion disabled, the destination-call estimation resolves
    to the raw estimate minus the internal-transaction correction when the
    raw estimate is strictly greater than the correction, and to the raw
    estimate otherwise; the result is not negative and not above the raw
    estimate. *)
Theorem internal_call_cost (details : EstimateGasParams) h raw :
  0 <= C -> 0 <= raw ->
  gw_estimateGas (provider this)
    {| tx_from := egp_from details;
       tx_to := egp_to details;
       tx_data := egp_data details;
       tx_gasPrice := option_map OfString (egp_gasPrice details) |} = Ok raw ->
  exists out h',
    estimateDestinationContractCallGas F C this details false h = (Ok out, h')
    /\ (C < raw -> out = raw - C)
    /\ (raw <= C -> out = raw)
    /\ 0 <= out <= raw.
Proof.
  intros HC Hraw Hest.
  exists (if gt raw C then sub raw C else raw). eexists. split.
  - unfold estimateDestinationContractCallGas, provider_estimateGas,
      await, perform, resolve. rewrite Hest. reflexivity.
  - unfold gt, sub. destruct (Z.ltb_spec C raw); repeat split; lia.
Qed.

End GasBudget.

(* ================================================================= *)
(** ** The version gate of [getInstance] *)

Lemma new_resolves node cfg :
  ContractInteractor.new node cfg
  = Ok (ContractInteractor.mk (VersionsManager.mk VERSION) cfg node).
Proof. reflexivity. Qed.

(** C9, on the code.  When the hub's version is not supported, the first
    [getInstance] rejects, but the static field already holds the interactor
    that failed the check: every later [getInstance] resolves to that very
    interactor, without asking for the hub's version again. *)
Theorem rejected_instance_is_kept node cfg h version :
  instance h = None ->
  gw_versionHub node (cfg_relayHubAddress cfg) = Ok version ->
  VersionsManager.isMinorSameOrNewer (VersionsManager.mk VERSION) version = Ok false ->
  exists e h1 i,
    getInstance node cfg h = (Throw e, h1)
    /\ instance h1 = Some i
    /\ provider i = node
    /\ forall node' cfg', getInstance node' cfg' h1 = (Ok i, h1).
Proof.
  intros Hnone Hver Hold.
  unfold getInstance, await, readInstance, writeInstance, settle, perform, resolve.
  rewrite Hnone, new_resolves.
  cbn [ContractInteractor.config ContractInteractor.provider instance calls].
  rewrite Hver. unfold _validateVersion.
  cbn [versionManager]. rewrite Hold. cbn [negb].
  do 3 eexists. split; [reflexivity|]. cbn [instance]. repeat split.
Qed.

(* ================================================================= *)
(** ** The statements at concrete inputs *)

(** A deploy check of a worker without funds: the budget is zero and the
    verdict has no [revertedInDestination] property, so it is not the
    verdict with that property set to false. *)
Lemma deploy_verdict_lacks_revertedInDestination :
  fst (deployBudgetOn brokeNode gwei) = Ok 0
  /\ exists v,
       fst (deployCheckOn brokeNode gwei) = Ok v
       /\ property (deployVerdictObject v) "revertedInDestination"
          <> Some (JSBool false).
Proof.
  split; [reflexivity|]. eexists. split; [reflexivity|]. discriminate.
Qed.

Lemma zero_budget_is_terminal_witness :
  (exists v,
     relayCheckOn brokeNode gwei = (Ok v, snd (relayBudgetOn brokeNode gwei))
     /\ verifierAccepted v = false /\ reverted v = false
     /\ revertedInDestination v = false
     /\ JS.includes (returnValue v) insufficientBalance
     /\ exists l, grewBy emptyHeap (snd (relayBudgetOn brokeNode gwei)) l
                  /\ noSimulation l)
  /\ (exists v,
     deployCheckOn brokeNode gwei = (Ok v, snd (deployBudgetOn brokeNode gwei))
     /\ d_verifierAccepted v = false /\ d_reverted v = false
     /\ property (deployVerdictObject v) "revertedInDestination" = None
     /\ JS.includes (d_returnValue v) insufficientBalance
     /\ exists l, grewBy emptyHeap (snd (deployBudgetOn brokeNode gwei)) l
                  /\ noSimulation l).
Proof.
  destruct (zero_budget_is_terminal one encodeTag sameAddress throughFixedNumber
              (interactorOn brokeNode)) as [Hrelay Hdeploy].
  split.
  - apply Hrelay. reflexivity.
  - apply Hdeploy. reflexivity.
Defined.

Lemma simulation_failures_become_verdicts_witness :
  (exists v h2,
     relayCheckOn (fundedNode (Throw notTheOwner) (Ok someTransaction)) gwei = (Ok v, h2)
     /\ verifierAccepted v = false /\ reverted v = false
     /\ JS.includes (returnValue v) "Not the owner")
  /\ (exists v h2,
     relayCheckOn (fundedNode (Ok tt) (Throw (mkError "revert"))) gwei = (Ok v, h2)
     /\ verifierAccepted v = true /\ reverted v = true
     /\ JS.includes (returnValue v) "revert").
Proof.
  split.
  - destruct (simulation_failures_become_verdicts one encodeTag sameAddress
               throughFixedNumber (interactorOn (fundedNode (Throw notTheOwner) (Ok someTransaction)))
               (requestAt gwei) theSignature emptyHeap
               (g := 100000 * 10 ^ 18) eq_refl ltac:(discriminate)) as [Hverifier _].
    destruct (Hverifier notTheOwner eq_refl) as (v & Hrun & Ha & Hr & before & after & Hd).
    exists v. eexists. split; [exact Hrun|]. repeat split; try assumption.
    exists (before ++ "revert "), after. rewrite Hd.
    now rewrite append_assoc3.
  - destruct (simulation_failures_become_verdicts one encodeTag sameAddress
               throughFixedNumber (interactorOn (fundedNode (Ok tt) (Throw (mkError "revert"))))
               (requestAt gwei) theSignature emptyHeap
               (g := 100000 * 10 ^ 18) eq_refl ltac:(discriminate)) as [_ Hhub].
    exact (Hhub (mkError "revert") eq_refl eq_refl).
Defined.

Lemma destination_failure_is_never_reported_witness :
  exists h2,
    relayCheckOn (fundedNode (Ok tt) (Ok someTransaction)) gwei =
      (Ok {| verifierAccepted := true; reverted := false;
             returnValue := EmptyString; revertedInDestination := false |}, h2).
Proof.
  exact (proj2 (destination_failure_is_never_reported one encodeTag sameAddress
                  throughFixedNumber
                  (interactorOn (fundedNode (Ok tt) (Ok someTransaction)))
                  (requestAt gwei) theSignature emptyHeap)
           (100000 * 10 ^ 18) _ someTransaction
           eq_refl ltac:(discriminate) eq_refl eq_refl).
Defined.

Lemma relayBudget_zero_price_calls_node_witness :
  exists e l,
    relayBudgetOn (fundedNode (Ok tt) (Ok someTransaction)) 0
      = (Throw e,
         mkHeap None
           ([] ++
            Node.estimateGas
              {| tx_from := relayWorker (relayData (requestAt 0));
                 tx_to := hubAddress;
                 tx_data := "relayCall";
                 tx_gasPrice := Some (OfBigNumber 0) |} :: l))
    /\ l = [Node.getBalance (relayWorker (relayData (requestAt 0)))].
Proof.
  destruct (relayBudget_zero_price_calls_node one encodeTag throughFixedNumber
              (interactorOn (fundedNode (Ok tt) (Ok someTransaction)))
              (requestAt 0) theSignature emptyHeap eq_refl)
    as (e & l & Hrun & Hl).
  exists e, l. split; [exact Hrun|].
  exact (Hl 100000 100000 (100000 * 10 ^ 18) eq_refl eq_refl eq_refl).
Defined.

Lemma budget_is_estimate_or_zero_witness :
  (exists h2, relayBudgetOn relayBoundaryNode 10 = (Ok (100 * 10 ^ 18), h2))
  /\ (exists h2, deployBudgetOn boundaryNode 10 = (Ok 100, h2)).
Proof.
  split.
  - destruct (proj1 (budget_is_estimate_or_zero one encodeTag throughFixedNumber
                       (interactorOn relayBoundaryNode) (b := 10 ^ 21) (p := 10)
                       (100 * 10 ^ 18) ltac:(lia) ltac:(lia))
                (requestAt 10) theSignature emptyHeap _ eq_refl eq_refl eq_refl)
      as (out & h2 & Hrun & Hge & _).
    pose proof (Hge ltac:(vm_compute; discriminate)) as He. subst out.
    exists h2. exact Hrun.
  - destruct (proj2 (budget_is_estimate_or_zero one encodeTag throughFixedNumber
                       (interactorOn boundaryNode) (b := 1000) (p := 10) 100
                       ltac:(lia) ltac:(lia))
                (deployAt 10) emptyHeap _ eq_refl eq_refl eq_refl)
      as (out & h2 & Hrun & Hge & _).
    pose proof (Hge ltac:(vm_compute; discriminate)) as He. subst out.
    exists h2. exact Hrun.
Defined.

Lemma fractional_factor_rejects_witness :
  (exists h',
     estimateRelayTransactionMaxPossibleGas one_point_one encodeTag throughFixedNumber
       (interactorOn (fundedNode (Ok tt) (Ok someTransaction))) (requestAt gwei)
       theSignature emptyHeap = (Throw (mkError "underflow"), h'))
  /\ (exists h',
     estimateDestinationContractCallGas one_point_one 20000
       (interactorOn (fundedNode (Ok tt) (Ok someTransaction))) (detailsOf "1000000000")
       true emptyHeap = (Throw (mkError "underflow"), h')).
Proof.
  exact (fractional_factor_rejects (F := one_point_one) 20000 encodeTag
           throughFixedNumber (interactorOn (fundedNode (Ok tt) (Ok someTransaction)))
           (detailsOf "1000000000") (requestAt gwei) theSignature emptyHeap
           (raw := 100000) eq_refl eq_refl eq_refl).
Defined.

Lemma internal_call_cost_witness :
  exists h',
    estimateDestinationContractCallGas one 20000
      (interactorOn (fundedNode (Ok tt) (Ok someTransaction))) (detailsOf "1000000000")
      false emptyHeap = (Ok 80000, h').
Proof.
  destruct (internal_call_cost one (C := 20000)
              (interactorOn (fundedNode (Ok tt) (Ok someTransaction)))
              (detailsOf "1000000000") emptyHeap (raw := 100000)
              ltac:(lia) ltac:(lia) eq_refl)
    as (out & h' & Hrun & Hgt & _).
  exists h'. rewrite (Hgt ltac:(lia)) in Hrun. exact Hrun.
Defined.

Lemma rejected_instance_is_kept_witness :
  exists e h1 i,
    getInstance oldHubNode someConfig emptyHeap = (Throw e, h1)
    /\ instance h1 = Some i
    /\ provider i = oldHubNode
    /\ forall node' cfg', getInstance node' cfg' h1 = (Ok i, h1).
Proof.
  exact (rejected_instance_is_kept oldHubNode someConfig emptyHeap
           (version := "1.0.0") eq_refl eq_refl eq_refl).
Defined.

(** The interactor kept after the rejection serves a relay check like any
    other: here the check of a funded worker resolves to acceptance. *)
Lemma rejected_instance_is_usable :
  let h1 := snd (getInstance oldHubNode someConfig emptyHeap) in
  throws (fst (getInstance oldHubNode someConfig emptyHeap)) = true
  /\ exists i,
       getInstance oldHubNode someConfig h1 = (Ok i, h1)
       /\ fst (validateAcceptRelayCall one encodeTag sameAddress throughFixedNumber i
                 (requestAt gwei) theSignature h1)
          = Ok {| verifierAccepted := true; reverted := false;
                  returnValue := EmptyString; revertedInDestination := false |}.
Proof.
  cbv zeta. split; [reflexivity|].
  exists (interactorOn oldHubNode). split; vm_compute; reflexivity.
Qed.

(* ================================================================= *)
(** ** Strings *)

Lemma trimEnd_involutive s : JS.trimEnd (JS.trimEnd s) = JS.trimEnd s.
Proof.
  induction s as [|c s IH]; [reflexivity|].
  cbn [JS.trimEnd]. destruct (JS.trimEnd s) as [|d t] eqn:Ht.
  - destruct (JS.isWhiteSpace c) eqn:Hc; [reflexivity|].
    cbn [JS.trimEnd]. now rewrite Hc.
  - cbn [JS.trimEnd] in *. now rewrite IH.
Qed.

Lemma trimStart_trimEnd s : JS.trimStart (JS.trimEnd s) = JS.trimEnd (JS.trimStart s).
Proof.
  induction s as [|c s IH]; [reflexivity|].
  cbn [JS.trimStart JS.trimEnd].
  destruct (JS.isWhiteSpace c) eqn:Hc.
  - rewrite <- IH. destruct (JS.trimEnd s) as [|d t]; [reflexivity|].
    cbn [JS.trimStart]. now rewrite Hc.
  - cbn [JS.trimEnd].
    destruct (JS.trimEnd s) as [|d t]; cbn [JS.trimStart]; rewrite Hc; reflexivity.
Qed.

Lemma trim_trimEnd s : JS.trim (JS.trimEnd s) = JS.trim s.
Proof.
  unfold JS.trim. now rewrite trimStart_trimEnd, trimEnd_involutive.
Qed.

Lemma trim_caret s : JS.trim (String "^" s) = String "^" (JS.trimEnd s).
Proof.
  unfold JS.trim. cbn [JS.trimStart].
  change (JS.isWhiteSpace "^") with false. cbn [JS.trimEnd].
  change (JS.isWhiteSpace "^") with false.
  destruct (JS.trimEnd s); reflexivity.
Qed.

Lemma replace_underscore c s :
  JS.replace "_" "-" (String c s)
  = if Ascii.eqb c underscore then String hyphen s
    else String c (JS.replace "_" "-" s).
Proof.
  cbn [JS.replace String.prefix].
  destruct (ascii_dec "_" c) as [<-|Hne].
  - replace (String.prefix "" s) with true by (destruct s; reflexivity).
    reflexivity.
  - assert (He : Ascii.eqb c underscore = false).
    { apply Ascii.eqb_neq. intros ->. now apply Hne. }
    now rewrite He.
Qed.

Lemma replace_without_underscore s :
  JS.count underscore s = O -> JS.replace "_" "-" s = s.
Proof.
  induction s as [|c s IH]; [reflexivity|].
  rewrite replace_underscore. cbn [JS.count].
  destruct (Ascii.eqb c underscore); [discriminate|].
  intros H. now rewrite IH.
Qed.

Lemma replaceEvery_without_underscore s :
  JS.count underscore s = O -> JS.replaceEvery underscore hyphen s = s.
Proof.
  induction s as [|c s IH]; [reflexivity|].
  cbn [JS.count JS.replaceEvery].
  destruct (Ascii.eqb c underscore); [discriminate|].
  intros H. now rewrite IH.
Qed.

Lemma replace_single_underscore s :
  (JS.count underscore s <= 1)%nat ->
  JS.replace "_" "-" s = JS.replaceEvery underscore hyphen s.
Proof.
  induction s as [|c s IH]; [reflexivity|].
  rewrite replace_underscore. cbn [JS.count JS.replaceEvery].
  destruct (Ascii.eqb c underscore); intros H.
  - rewrite replaceEvery_without_underscore; [reflexivity | lia].
  - now rewrite IH.
Qed.

Lemma replaceEvery_leaves_none s :
  JS.count underscore (JS.replaceEvery underscore hyphen s) = O.
Proof.
  induction s as [|c s IH]; [reflexivity|].
  cbn [JS.count JS.replaceEvery].
  destruct (Ascii.eqb c underscore) eqn:Hc.
  - change (Ascii.eqb hyphen underscore) with false. exact IH.
  - now rewrite Hc.
Qed.

(* ================================================================= *)
(** ** semver: parsing *)

Import Semver.

Lemma checked_inv M m p pre bld v :
  checked M m p pre bld = Ok v ->
  v = mkSemVer M m p pre bld /\ inSafeRange v.
Proof.
  unfold checked, inSafeRange.
  destruct (Z.ltb_spec MAX_SAFE_INTEGER M), (Z.ltb_spec M 0); cbn [orb]; try discriminate.
  destruct (Z.ltb_spec MAX_SAFE_INTEGER m), (Z.ltb_spec m 0); cbn [orb]; try discriminate.
  destruct (Z.ltb_spec MAX_SAFE_INTEGER p), (Z.ltb_spec p 0); cbn [orb]; try discriminate.
  intros [= <-]. cbn [major minor patch]. repeat split; assumption.
Qed.

Lemma checked_safe M m p pre bld :
  inSafeRange (mkSemVer M m p pre bld) ->
  checked M m p pre bld = Ok (mkSemVer M m p pre bld).
Proof.
  unfold checked, inSafeRange. cbn [major minor patch]. intros (HM & Hm & Hp).
  destruct (Z.ltb_spec MAX_SAFE_INTEGER M), (Z.ltb_spec M 0); try lia.
  destruct (Z.ltb_spec MAX_SAFE_INTEGER m), (Z.ltb_spec m 0); try lia.
  destruct (Z.ltb_spec MAX_SAFE_INTEGER p), (Z.ltb_spec p 0); try lia.
  reflexivity.
Qed.

Lemma checked_unsafe M m p pre bld :
  ~ inSafeRange (mkSemVer M m p pre bld) ->
  throws (checked M m p pre bld) = true.
Proof.
  unfold checked, inSafeRange. cbn [major minor patch]. intros Hn.
  destruct (Z.ltb_spec MAX_SAFE_INTEGER M), (Z.ltb_spec M 0); cbn [orb]; try reflexivity.
  destruct (Z.ltb_spec MAX_SAFE_INTEGER m), (Z.ltb_spec m 0); cbn [orb]; try reflexivity.
  destruct (Z.ltb_spec MAX_SAFE_INTEGER p), (Z.ltb_spec p 0); cbn [orb]; try reflexivity.
  exfalso. apply Hn. lia.
Qed.

Lemma digitValue_nonneg c : isDigit c = true -> 0 <= digitValue c.
Proof.
  unfold isDigit, digitValue. intros H.
  apply andb_prop in H as [H _]. apply Nat.leb_le in H. lia.
Qed.

Lemma toNumberFrom_nonneg s : forall acc,
  JS.all isDigit s = true -> 0 <= acc -> 0 <= toNumberFrom acc s.
Proof.
  induction s as [|c s IH]; intros acc Hs Hacc; [exact Hacc|].
  cbn [JS.all] in Hs. apply andb_prop in Hs as [Hc Hs].
  cbn [toNumberFrom]. apply IH; [exact Hs|].
  pose proof (digitValue_nonneg _ Hc). lia.
Qed.

Lemma toDouble_nonneg n : 0 <= n -> 0 <= toDouble n.
Proof.
  intros Hn. unfold toDouble. destruct (n <? 2 ^ 53); [exact Hn|]. cbv zeta.
  set (e := Z.log2 n - 52).
  assert (Hp : 0 <= 2 ^ e) by (apply Z.pow_nonneg; lia).
  assert (Hq : 0 <= n / 2 ^ e) by (apply Z_div_nonneg_nonneg; assumption).
  destruct (_ <? _); [nia|]. destruct (_ <? _); [nia|]. destruct (Z.even _); nia.
Qed.

Lemma toIdentifier_wf id : wfIdentifier (toIdentifier id).
Proof.
  unfold toIdentifier, wfIdentifier.
  destruct (JS.all isDigit id) eqn:Hd; cbn [andb].
  - destruct (toNumber id <? MAX_SAFE_INTEGER); intros _; cbn [numberOf];
      try apply toDouble_nonneg; apply toNumberFrom_nonneg; (exact Hd || lia).
  - cbn [isNumeric]. rewrite Hd, andb_false_r. discriminate.
Qed.

Lemma SemVer_new_wellFormed s v : SemVer_new s = Ok v -> wellFormed v.
Proof.
  unfold SemVer_new. destruct (_ <? _)%nat; [discriminate|].
  destruct (matchFull _) as [[[[[M m] p] pre] bld]|]; [|discriminate].
  intros H. apply checked_inv in H as [-> Hs]. split; [exact Hs|].
  cbn [prerelease]. destruct pre as [pre|]; cbn [splitIds]; [|constructor].
  induction (JS.split "." pre) as [|id l IH]; cbn [map]; constructor;
    [apply toIdentifier_wf | exact IH].
Qed.

(** The range [VersionsManager] builds from a valid component version is the
    caret range of the version it parses to. *)
Lemma Range_new_caret cv o :
  SemVer_new cv = Ok o ->
  Range_new ("^" ++ cv)
  = replaceCaret (major o) (minor o) (patch o) (prerelease o).
Proof.
  unfold SemVer_new, Range_new. destruct (_ <? _)%nat; [discriminate|].
  change ("^" ++ cv) with (String "^" cv).
  rewrite trim_caret, trim_trimEnd.
  destruct (matchFull _) as [[[[[M m] p] pre] bld]|]; [|discriminate].
  intros H. apply checked_inv in H as [-> _]. reflexivity.
Qed.

Lemma SemVer_new_empty : throws (SemVer_new "") = true.
Proof. reflexivity. Qed.

(* ================================================================= *)
(** ** semver: the order and the caret range *)

Lemma compare_ignores_build v M m p pre bld bld' :
  compare v (mkSemVer M m p pre bld) = compare v (mkSemVer M m p pre bld').
Proof. reflexivity. Qed.

Lemma sameTuple_spec a b :
  sameTuple a b = true
  <-> major a = major b /\ minor a = minor b /\ patch a = patch b.
Proof. unfold sameTuple. rewrite !andb_true_iff, !Z.eqb_eq. tauto. Qed.

Lemma compareMain_eq a b :
  compareMain a b = Eq <-> sameTuple a b = true.
Proof.
  rewrite sameTuple_spec. unfold compareMain.
  destruct (Z.compare_spec (major a) (major b)),
           (Z.compare_spec (minor a) (minor b)),
           (Z.compare_spec (patch a) (patch b));
  (split; [intros Hc; try discriminate; lia
          | intros (? & ? & ?); try reflexivity; lia]).
Qed.

Lemma sameTuple_sym a b : sameTuple a b = true -> sameTuple b a = true.
Proof. rewrite !sameTuple_spec. intuition congruence. Qed.

Lemma inSafeRange_dec v : {inSafeRange v} + {~ inSafeRange v}.
Proof.
  unfold inSafeRange.
  destruct (Z_le_dec 0 (major v)), (Z_le_dec (major v) MAX_SAFE_INTEGER),
           (Z_le_dec 0 (minor v)), (Z_le_dec (minor v) MAX_SAFE_INTEGER),
           (Z_le_dec 0 (patch v)), (Z_le_dec (patch v) MAX_SAFE_INTEGER);
  (left; lia) || (right; lia).
Qed.

(** A version with a pre-release tag on the numbers of the next breaking
    version is not below it: [-0] is the lowest tag there is. *)
Lemma lowest_tag v up :
  wellFormed v -> prerelease up = [NumId 0] ->
  hasPrerelease v = true -> sameTuple up v = true ->
  compare v up <> Lt.
Proof.
  intros [_ Hwf] Hup Hpre Hsame. unfold compare.
  apply sameTuple_sym, compareMain_eq in Hsame. rewrite Hsame.
  unfold comparePre. rewrite Hup.
  destruct (prerelease v) as [|x rest]; [discriminate|].
  cbn [compareIds]. inversion Hwf as [|? ? Hx _]; subst.
  destruct (sameIdentifier x (NumId 0)).
  - destruct rest; discriminate.
  - unfold compareIdentifiers. destruct (isNumeric x) eqn:Hn; cbn [isNumeric].
    + specialize (Hx Hn). cbn [numberOf].
      destruct (Z.compare_spec (numberOf x) 0); try discriminate; lia.
    + discriminate.
Qed.

Lemma replaceCaret_safe M m p pre bld :
  inSafeRange (mkSemVer M m p pre bld) ->
  inSafeRange (nextBreaking (mkSemVer M m p pre bld)) ->
  replaceCaret M m p pre
  = Ok [[mkComparator GTE (mkSemVer M m p pre []);
         mkComparator LT (nextBreaking (mkSemVer M m p pre bld))]].
Proof.
  intros Ho Hup. unfold replaceCaret.
  rewrite (checked_safe (bld := []) Ho).
  unfold nextBreaking in *. cbn [major minor patch] in *.
  destruct (M =? 0); [destruct (m =? 0)|]; now rewrite (checked_safe Hup).
Qed.

Lemma replaceCaret_unsafe M m p pre bld :
  ~ inSafeRange (nextBreaking (mkSemVer M m p pre bld)) ->
  throws (replaceCaret M m p pre) = true.
Proof.
  intros Hup. unfold replaceCaret.
  destruct (checked M m p pre []); [|reflexivity].
  unfold nextBreaking in Hup. cbn [major minor patch] in Hup.
  destruct (M =? 0); [destruct (m =? 0)|];
    apply checked_unsafe in Hup; destruct (checked _ _ _ _ _); (discriminate || reflexivity).
Qed.

(** The two comparators of a caret range, tested on a parsed version. *)
Lemma testSet_caret lower up v :
  wellFormed v -> prerelease up = [NumId 0] ->
  testSet [mkComparator GTE lower; mkComparator LT up] v = true
  <-> compare v lower <> Lt
      /\ compare v up = Lt
      /\ (prerelease v = []
          \/ (prerelease lower <> [] /\ sameTuple lower v = true)).
Proof.
  intros Hwf Hup. unfold testSet.
  cbn [forallb existsb]. unfold Comparator_test. cbn [operator semver].
  rewrite andb_true_r, orb_false_r.
  assert (Hhas : forall x, hasPrerelease x = true <-> prerelease x <> []).
  { intros x. unfold hasPrerelease. destruct (prerelease x); split; congruence. }
  destruct (compare v lower) eqn:Hl; destruct (compare v up) eqn:Hu;
    cbn [andb negb];
    try (split; [discriminate | intros (H1 & H2 & _); congruence]).
  all: destruct (hasPrerelease v) eqn:Hv.
  all: split.
  all: try reflexivity.
  all: try (intros _; split; [discriminate|]; split; [reflexivity|]; left;
            unfold hasPrerelease in Hv; destruct (prerelease v);
            [reflexivity | discriminate]).
  all: try (intros H; split; [discriminate|]; split; [reflexivity|]; right;
            apply orb_prop in H as [H|H]; apply andb_prop in H as [H1 H2];
            [ split; [exact (proj1 (Hhas lower) H1) | exact H2]
            | exfalso; eapply lowest_tag;
              [exact Hwf | exact Hup | exact Hv | exact H2 | exact Hu] ]).
  all: intros (_ & _ & [Hnil | [Hpre Hsame]]);
       [ apply (proj1 (Hhas v)) in Hv; contradiction
       | apply (proj2 (Hhas lower)) in Hpre; rewrite Hpre, Hsame; reflexivity ].
Qed.

(* ================================================================= *)
(** ** The version gate of [VersionsManager] *)

Lemma gate_membership cv o remote :
  SemVer_new cv = Ok o ->
  VersionsManager.isMinorSameOrNewer (VersionsManager.mk cv) remote = Ok true
  <-> exists r, SemVer_new (JS.replace "_" "-" remote) = Ok r /\ inCaretRange o r.
Proof.
  intros Ho. unfold VersionsManager.isMinorSameOrNewer, satisfies.
  cbn [VersionsManager.componentVersion]. rewrite (Range_new_caret _ Ho).
  pose proof (SemVer_new_wellFormed _ Ho) as [Hsafe _].
  destruct o as [M m p pre bld]. cbn [major minor patch prerelease].
  set (version := JS.replace "_" "-" remote).
  destruct (inSafeRange_dec (nextBreaking (mkSemVer M m p pre bld))) as [Hup|Hup].
  - rewrite (replaceCaret_safe Hsafe Hup). unfold Range_test.
    destruct (SemVer_new version) as [r|e] eqn:Hr.
    + assert (Hne : JS.isEmpty version = false).
      { destruct version; [discriminate Hr | reflexivity]. }
      rewrite Hne. cbn [existsb]. rewrite orb_false_r.
      assert (Htag : prerelease (nextBreaking (mkSemVer M m p pre bld)) = [NumId 0]).
      { unfold nextBreaking. destruct (_ =? 0); [destruct (_ =? 0)|]; reflexivity. }
      pose proof (testSet_caret (mkSemVer M m p pre []) _
                    (SemVer_new_wellFormed _ Hr) Htag) as Hset.
      split.
      * intros [= Ht]. exists r. split; [reflexivity|].
        apply Hset in Ht as (H1 & H2 & H3).
        split; [exact Hup|]. split; [exact H1|]. split; [exact H2 | exact H3].
      * intros (r' & [= <-] & _ & H1 & H2 & H3). f_equal.
        apply Hset. split; [exact H1|]. split; [exact H2 | exact H3].
    + split.
      * destruct (JS.isEmpty version); discriminate.
      * intros (r & Habs & _). discriminate.
  - pose proof (replaceCaret_unsafe _ _ _ _ _ Hup) as Ht.
    destruct (replaceCaret M m p pre); [discriminate|].
    split; [discriminate|]. intros (r & _ & Habs & _). contradiction.
Qed.

Lemma notOlder_major o r : notOlder o r -> major o <= major r.
Proof.
  unfold notOlder, compare, compareMain.
  destruct (Z.compare_spec (major r) (major o)); intros Hn; try lia.
  exfalso. now apply Hn.
Qed.

Lemma notOlder_minor o r :
  notOlder o r -> major r = major o -> minor o <= minor r.
Proof.
  unfold notOlder, compare, compareMain. intros Hn Heq.
  rewrite Heq, Z.compare_refl in Hn.
  destruct (Z.compare_spec (minor r) (minor o)); try lia.
  exfalso. now apply Hn.
Qed.

Lemma below_next_major r M :
  wellFormed r -> prerelease r = [] ->
  compare r (mkSemVer (M + 1) 0 0 [NumId 0] []) = Lt <-> major r <= M.
Proof.
  intros [(_ & Hm & Hp) _] Hrel. unfold compare, compareMain, comparePre.
  cbn [major minor patch prerelease]. rewrite Hrel.
  destruct (Z.compare_spec (major r) (M + 1)),
           (Z.compare_spec (minor r) 0), (Z.compare_spec (patch r) 0);
    split; intros; try discriminate; try reflexivity; lia.
Qed.

Lemma below_next_minor r m :
  wellFormed r -> prerelease r = [] ->
  compare r (mkSemVer 0 (m + 1) 0 [NumId 0] []) = Lt
  <-> major r = 0 /\ minor r <= m.
Proof.
  intros [(HM & _ & Hp) _] Hrel. unfold compare, compareMain, comparePre.
  cbn [major minor patch prerelease]. rewrite Hrel.
  destruct (Z.compare_spec (major r) 0),
           (Z.compare_spec (minor r) (m + 1)), (Z.compare_spec (patch r) 0);
    split; intros; try discriminate; try reflexivity; lia.
Qed.

(** Among versions without pre-release tags, the caret range of a version
    from 1.0.0 on is "same major version and not older". *)
Lemma caret_same_major o r :
  wellFormed r -> prerelease r = [] ->
  1 <= major o < MAX_SAFE_INTEGER ->
  inCaretRange o r <-> major r = major o /\ notOlder o r.
Proof.
  intros Hwf Hrel HM. unfold inCaretRange, nextBreaking.
  destruct (Z.eqb_spec (major o) 0) as [Hz|_]; [lia|].
  rewrite (below_next_major _ Hwf Hrel). split.
  - intros (_ & Hold & Hle & _). split; [|exact Hold].
    pose proof (notOlder_major Hold). lia.
  - intros [HMr Hold]. split.
    + unfold inSafeRange, MAX_SAFE_INTEGER in *. cbn [major minor patch]. lia.
    + split; [exact Hold|]. split; [lia | left; exact Hrel].
Qed.

(** ... and that of a version 0.y.z with y above zero is "same minor version
    and not older". *)
Lemma caret_same_minor o r :
  wellFormed r -> prerelease r = [] ->
  major o = 0 -> 1 <= minor o < MAX_SAFE_INTEGER ->
  inCaretRange o r <-> major r = 0 /\ minor r = minor o /\ notOlder o r.
Proof.
  intros Hwf Hrel HM Hm. unfold inCaretRange, nextBreaking. rewrite HM.
  cbn [Z.eqb]. destruct (Z.eqb_spec (minor o) 0) as [Hz|_]; [lia|].
  rewrite (below_next_minor _ Hwf Hrel). split.
  - intros (_ & Hold & [HMr Hle] & _). split; [exact HMr|]. split; [|exact Hold].
    assert (Heq : major r = major o) by lia.
    pose proof (notOlder_minor Hold Heq). lia.
  - intros (HMr & Hmr & Hold). split.
    + unfold inSafeRange, MAX_SAFE_INTEGER in *. cbn [major minor patch]. lia.
    + split; [exact Hold|]. split; [lia | left; exact Hrel].
Qed.

Lemma new_inv cv vm :
  VersionsManager.new cv = Ok vm ->
  vm = VersionsManager.mk cv /\ exists o, SemVer_new cv = Ok o.
Proof.
  unfold VersionsManager.new, valid.
  destruct (SemVer_new cv) as [o|e]; [|discriminate].
  intros [= <-]. split; [reflexivity | now exists o].
Qed.

(** At the last safe integer the range cannot be built and holds
    nothing. *)
Lemma caret_at_last_major o r :
  1 <= major o -> ~ major o < MAX_SAFE_INTEGER -> ~ inCaretRange o r.
Proof.
  intros HM Hlast (Hsafe & _). unfold nextBreaking in Hsafe.
  destruct (Z.eqb_spec (major o) 0) as [Hz|_]; [lia|].
  unfold inSafeRange in Hsafe. cbn [major] in Hsafe. lia.
Qed.

Lemma caret_at_last_minor o r :
  major o = 0 -> 1 <= minor o -> ~ minor o < MAX_SAFE_INTEGER -> ~ inCaretRange o r.
Proof.
  intros HM Hm Hlast (Hsafe & _). unfold nextBreaking in Hsafe.
  rewrite HM in Hsafe. cbn [Z.eqb] in Hsafe.
  destruct (Z.eqb_spec (minor o) 0) as [Hz|_]; [lia|].
  unfold inSafeRange in Hsafe. cbn [minor] in Hsafe. lia.
Qed.

(** C8 (as amended).  For a checker constructed with a valid own version,
    [isMinorSameOrNewer] answers true exactly when the remote string, with its
    FIRST underscore replaced by a hyphen, parses to a version in the caret
    range derived from the own version; among versions without pre-release
    tags that range is "same major version and not older" from 1.0.0 on, and
    "same minor version and not older" for 0.y.z with y above zero, as long
    as that major (or minor) version is below 9007199254740991, and it is
    empty when it is 9007199254740991; and a remote string with at most one
    underscore is answered like the same string with its underscores
    replaced by hyphens. *)
Theorem caret_gate cv vm :
  VersionsManager.new cv = Ok vm ->
  exists o,
    SemVer_new cv = Ok o
    /\ (forall remote,
          VersionsManager.isMinorSameOrNewer vm remote = Ok true
          <-> exists r,
                SemVer_new (JS.replace "_" "-" remote) = Ok r
                /\ inCaretRange o r)
    /\ (forall r,
          wellFormed r -> prerelease r = [] ->
          (1 <= major o ->
             (inCaretRange o r
              <-> major o < MAX_SAFE_INTEGER
                  /\ major r = major o /\ notOlder o r))
          /\ (major o = 0 -> 1 <= minor o ->
             (inCaretRange o r
              <-> minor o < MAX_SAFE_INTEGER
                  /\ major r = 0 /\ minor r = minor o /\ notOlder o r)))
    /\ (forall remote,
          (JS.count underscore remote <= 1)%nat ->
          VersionsManager.isMinorSameOrNewer vm remote
          = VersionsManager.isMinorSameOrNewer vm
              (JS.replaceEvery underscore hyphen remote)).
Proof.
  intros Hnew. apply new_inv in Hnew as [-> [o Ho]].
  exists o. split; [exact Ho|]. split; [|split].
  - intros remote. now apply gate_membership.
  - intros r Hwf Hrel. split.
    + intros HM. destruct (Z_lt_dec (major o) MAX_SAFE_INTEGER) as [Hlt|Hlast].
      * rewrite (@caret_same_major o r Hwf Hrel (conj HM Hlt)). tauto.
      * pose proof (@caret_at_last_major o r HM Hlast). tauto.
    + intros HM Hm. destruct (Z_lt_dec (minor o) MAX_SAFE_INTEGER) as [Hlt|Hlast].
      * rewrite (@caret_same_minor o r Hwf Hrel HM (conj Hm Hlt)). tauto.
      * pose proof (@caret_at_last_minor o r HM Hm Hlast). tauto.
  - intros remote Hone. unfold VersionsManager.isMinorSameOrNewer.
    rewrite (replace_single_underscore _ Hone).
    now rewrite (replace_without_underscore _ (replaceEvery_leaves_none remote)).
Qed.

(** C10.  For a checker constructed with a valid own version and any remote
    string, [isMinorSameOrNewer] returns a boolean and does not throw; the
    boolean is false when the string, after the replacement of its
    underscore, does not parse as a version, and so it is for a string
    without underscores that does not parse. *)
Theorem gate_never_throws cv vm remote :
  VersionsManager.new cv = Ok vm ->
  exists b,
    VersionsManager.isMinorSameOrNewer vm remote = Ok b
    /\ (throws (SemVer_new (JS.replace "_" "-" remote)) = true -> b = false)
    /\ (JS.count underscore remote = O ->
        throws (SemVer_new remote) = true -> b = false).
Proof.
  intros _. unfold VersionsManager.isMinorSameOrNewer, satisfies, Range_test.
  assert (Hcore : exists b,
    match Range_new ("^" ++ VersionsManager.componentVersion vm) with
    | Ok r =>
        if JS.isEmpty (JS.replace "_" "-" remote) then Ok false
        else match SemVer_new (JS.replace "_" "-" remote) with
             | Ok v => Ok (existsb (fun set => testSet set v) r)
             | Throw _ => Ok false
             end
    | Throw _ => Ok false
    end = Ok b
    /\ (throws (SemVer_new (JS.replace "_" "-" remote)) = true -> b = false)).
  { destruct (Range_new _) as [r|e].
    - destruct (JS.isEmpty _).
      + exists false. split; reflexivity.
      + destruct (SemVer_new _) as [v|e].
        * eexists. split; [reflexivity | discriminate].
        * exists false. split; reflexivity.
    - exists false. split; reflexivity. }
  destruct Hcore as (b & Hb & Hfalse). exists b.
  split; [exact Hb|]. split; [exact Hfalse|].
  intros Hnone. rewrite (replace_without_underscore _ Hnone) in Hfalse.
  exact Hfalse.
Qed.

(** Four refusals.  The hub version [2.0.1+a_b_c] is refused by the
    checker of 2.0.1, although with every underscore replaced it is
    [2.0.1+a-b-c], which is in the range [^2.0.1] and which the checker
    accepts.  The checker of 0.0.1 refuses 0.0.2, of the same minor version
    and newer; the checker of 2.0.1 refuses 2.1.0-beta, of the same major
    version and newer; the checker of 9007199254740991.0.0 refuses that very
    version. *)
Lemma caret_gate_refusals :
  (VersionsManager.new "2.0.1" = Ok (VersionsManager.mk "2.0.1")
   /\ VersionsManager.isMinorSameOrNewer (VersionsManager.mk "2.0.1") "2.0.1+a_b_c"
      = Ok false
   /\ JS.replaceEvery underscore hyphen "2.0.1+a_b_c" = "2.0.1+a-b-c"
   /\ satisfies "2.0.1+a-b-c" "^2.0.1" = Ok true
   /\ VersionsManager.isMinorSameOrNewer (VersionsManager.mk "2.0.1") "2.0.1+a-b-c"
      = Ok true)
  /\ (VersionsManager.new "0.0.1" = Ok (VersionsManager.mk "0.0.1")
      /\ VersionsManager.isMinorSameOrNewer (VersionsManager.mk "0.0.1") "0.0.2"
         = Ok false)
  /\ VersionsManager.isMinorSameOrNewer (VersionsManager.mk "2.0.1") "2.1.0-beta"
     = Ok false
  /\ (VersionsManager.new lastMajor = Ok (VersionsManager.mk lastMajor)
      /\ VersionsManager.isMinorSameOrNewer (VersionsManager.mk lastMajor) lastMajor
         = Ok false).
Proof.
  split; [|split; [split|split; [|split]]]; try reflexivity.
  split; [|split; [|split; [|split]]]; reflexivity.
Qed.

Lemma caret_gate_witness :
  VersionsManager.isMinorSameOrNewer (VersionsManager.mk "2.0.1") "2.3.4" = Ok true
  /\ VersionsManager.isMinorSameOrNewer (VersionsManager.mk "2.0.1") "2.0.1_rc"
     = VersionsManager.isMinorSameOrNewer (VersionsManager.mk "2.0.1") "2.0.1-rc".
Proof.
  destruct (caret_gate "2.0.1" eq_refl) as (o & Ho & Hin & Hrel & Hone).
  vm_compute in Ho. injection Ho as <-.
  split.
  - apply Hin. exists (mkSemVer 2 3 4 [] []). split; [reflexivity|].
    assert (Hwf : wellFormed (mkSemVer 2 3 4 [] [])).
    { split; [|constructor].
      unfold inSafeRange, MAX_SAFE_INTEGER. cbn [major minor patch]. lia. }
    assert (Hbounds : 1 <= 2) by lia.
    apply (proj2 (proj1 (Hrel _ Hwf eq_refl) Hbounds)).
    split; [reflexivity|]. split; [reflexivity | vm_compute; discriminate].
  - exact (Hone "2.0.1_rc" ltac:(vm_compute; lia)).
Defined.

Lemma gate_never_throws_witness :
  VersionsManager.isMinorSameOrNewer (VersionsManager.mk "2.0.1") "" = Ok false
  /\ VersionsManager.isMinorSameOrNewer (VersionsManager.mk "2.0.1") "not a version"
     = Ok false
  /\ VersionsManager.isMinorSameOrNewer (VersionsManager.mk "2.0.1") "2.0.1-a_b_c"
     = Ok false.
Proof.
  split; [|split].
  - destruct (gate_never_throws "2.0.1" "" eq_refl) as (b & Hb & _ & Hraw).
    rewrite Hb, (Hraw eq_refl eq_refl). reflexivity.
  - destruct (gate_never_throws "2.0.1" "not a version" eq_refl)
      as (b & Hb & _ & Hraw).
    rewrite Hb, (Hraw eq_refl eq_refl). reflexivity.
  - destruct (gate_never_throws "2.0.1" "2.0.1-a_b_c" eq_refl)
      as (b & Hb & Hfirst & _).
    rewrite Hb, (Hfirst eq_refl). reflexivity.
Defined.

(** The same with a pre-release tag: own version [1.0.0-alpha], hub version
    [1.0.0-b_c_d]. *)
Lemma second_underscore_in_tag :
  VersionsManager.isMinorSameOrNewer (VersionsManager.mk "1.0.0-alpha") "1.0.0-b_c_d"
  = Ok false
  /\ VersionsManager.isMinorSameOrNewer (VersionsManager.mk "1.0.0-alpha") "1.0.0-b-c-d"
     = Ok true.
Proof. split; reflexivity. Qed.

(* ================================================================= *)
(** ** More on the feasibility checks *)

Section Checks.

Variable F : number.
Variable enc : string -> RequestStruct -> string -> string.
Variable ga : string -> string.
Variable fx : BigNumber -> Result BigNumber.
Variable this : ContractInteractor.t.

Lemma deployCheck_step d h g h1 :
  getMaxViewableDeployGasLimit this d h = (Ok g, h1) -> g <> 0 ->
  validateAcceptDeployCall ga this d h =
    match deployVerifierAnswer ga this d with
    | Throw e =>
        (Ok {| d_verifierAccepted := false; d_reverted := false;
               d_returnValue :=
                 "view call to 'deploy call' reverted in verifier: " ++ message e |},
         mkHeap (instance h1) (calls h1 ++ [deployVerifierCall ga this d]))
    | Ok _ =>
        let h2 := mkHeap (instance h1)
                    ((calls h1 ++ [deployVerifierCall ga this d])
                     ++ [deployHubCall ga this d g]) in
        match deployHubAnswer ga this d g with
        | Ok res =>
            (Ok {| d_verifierAccepted := true; d_reverted := false;
                   d_returnValue := hash res |}, h2)
        | Throw e =>
            (Ok {| d_verifierAccepted := true; d_reverted := true;
                   d_returnValue :=
                     "view call to 'deployCall' reverted in client: " ++ message e |},
             h2)
        end
    end.
Proof.
  intros Hb Hg. unfold validateAcceptDeployCall.
  rewrite (await_resolved _ _ _ Hb).
  assert (Hz : Ethers.eq g 0 = false) by (unfold Ethers.eq; now apply Z.eqb_neq).
  rewrite Hz. unfold await, attempt, perform, resolve, getSigner,
    deployVerifierAnswer, deployHubAnswer, deployVerifierCall, deployHubCall.
  cbn [_address instance calls].
  destruct (gw_deployVerifier_verifyRelayedCall _ _ _ _ _) as [u|e]; [|reflexivity].
  destruct (gw_deployCall _ _ _ _ _ _ _) as [res|e]; reflexivity.
Qed.

(** X1.  In a deploy check whose gas budget is not zero: if the verifier
    simulation throws, the check resolves to a verdict with
    [verifierAccepted] and [reverted] false whose detail contains the thrown
    message, and the hub's [deployCall] is not reached; if the verifier
    accepts and [deployCall] throws, the check resolves to a verdict with
    both true whose detail contains the thrown message. *)
Theorem deploy_failures_become_verdicts d h g h1 :
  getMaxViewableDeployGasLimit this d h = (Ok g, h1) -> g <> 0 ->
  (forall e, deployVerifierAnswer ga this d = Throw e ->
     exists v,
       validateAcceptDeployCall ga this d h
         = (Ok v, mkHeap (instance h1) (calls h1 ++ [deployVerifierCall ga this d]))
       /\ d_verifierAccepted v = false /\ d_reverted v = false
       /\ JS.includes (d_returnValue v) (message e))
  /\ (forall e, deployVerifierAnswer ga this d = Ok tt ->
                deployHubAnswer ga this d g = Throw e ->
     exists v h2,
       validateAcceptDeployCall ga this d h = (Ok v, h2)
       /\ d_verifierAccepted v = true /\ d_reverted v = true
       /\ JS.includes (d_returnValue v) (message e)).
Proof.
  intros Hb Hg. rewrite (deployCheck_step _ _ Hb Hg). split.
  - intros e ->. eexists. split; [reflexivity|].
    cbn [d_verifierAccepted d_reverted d_returnValue].
    split; [reflexivity|]. split; [reflexivity|]. apply includes_suffix.
  - intros e -> ->. do 2 eexists. split; [reflexivity|].
    cbn [d_verifierAccepted d_reverted d_returnValue].
    split; [reflexivity|]. split; [reflexivity|]. apply includes_suffix.
Qed.

(** X2.  In a deploy check whose gas budget is not zero, when the verifier
    accepts and [deployCall] resolves, the verdict is accepted, not reverted,
    and its [returnValue] is the hash of the transaction [deployCall]
    resolved to; the hub was called with the request's gas price and the
    budget as gas limit, after the verifier. *)
Theorem deploy_verdict_carries_hash d h g h1 tx :
  getMaxViewableDeployGasLimit this d h = (Ok g, h1) -> g <> 0 ->
  deployVerifierAnswer ga this d = Ok tt ->
  deployHubAnswer ga this d g = Ok tx ->
  validateAcceptDeployCall ga this d h
  = (Ok {| d_verifierAccepted := true; d_reverted := false;
           d_returnValue := hash tx |},
     mkHeap (instance h1)
       ((calls h1 ++ [deployVerifierCall ga this d])
        ++ [Node.relayHub_deployCall (cfg_relayHubAddress (config this))
              (ga (relayWorker (relayData (relayRequest d))))
              (relayRequest d) (signature (metadata d))
              (gasPrice (relayData (relayRequest d))) g])).
Proof.
  intros Hb Hg Hv Hh. rewrite (deployCheck_step _ _ Hb Hg), Hv, Hh. reflexivity.
Qed.

(** X3.  A feasibility check rejects exactly when its budget computation
    rejects, with the same error and the same trace: once the budget is
    known, whatever the verifier and the hub do, the check resolves to a
    verdict. *)
Theorem check_rejects_with_its_budget :
  (forall r sig h e h',
      validateAcceptRelayCall F enc ga fx this r sig h = (Throw e, h')
      <-> getMaxViewableRelayGasLimit F enc fx this r sig h = (Throw e, h'))
  /\ (forall d h e h',
      validateAcceptDeployCall ga this d h = (Throw e, h')
      <-> getMaxViewableDeployGasLimit this d h = (Throw e, h')).
Proof.
  split.
  - intros r sig h e h'.
    destruct (getMaxViewableRelayGasLimit F enc fx this r sig h) as [[g|e0] h0] eqn:Hb.
    + destruct (Z.eq_dec g 0) as [->|Hg].
      * unfold validateAcceptRelayCall. rewrite (await_resolved _ _ _ Hb).
        cbn [Ethers.eq Z.eqb]. unfold resolve. split; discriminate.
      * rewrite (@relayCheck_step F enc ga fx this r sig h g h0 Hb Hg).
        destruct (verifierAnswer ga this r sig); [|split; discriminate].
        cbv zeta. destruct (hubAnswer ga this r sig g); split; discriminate.
    + unfold validateAcceptRelayCall. rewrite (await_rejected _ _ _ Hb).
      split; intros [= -> ->]; reflexivity.
  - intros d h e h'.
    destruct (getMaxViewableDeployGasLimit this d h) as [[g|e0] h0] eqn:Hb.
    + destruct (Z.eq_dec g 0) as [->|Hg].
      * unfold validateAcceptDeployCall. rewrite (await_resolved _ _ _ Hb).
        cbn [Ethers.eq Z.eqb]. unfold resolve. split; discriminate.
      * rewrite (deployCheck_step _ _ Hb Hg).
        destruct (deployVerifierAnswer ga this d); [|split; discriminate].
        cbv zeta. destruct (deployHubAnswer ga this d g); split; discriminate.
    + unfold validateAcceptDeployCall. rewrite (await_rejected _ _ _ Hb).
      split; intros [= -> ->]; reflexivity.
Qed.

(** X4.  What a relay check adds to the trace of its budget computation is
    nothing, the verifier simulation alone, or the verifier simulation
    followed by the hub simulation; the hub is simulated only when the
    verifier accepted, and then with the request's gas price and the budget
    as gas limit. *)
Theorem hub_is_simulated_after_acceptance r sig h out h' :
  validateAcceptRelayCall F enc ga fx this r sig h = (out, h') ->
  exists budget hb l,
    getMaxViewableRelayGasLimit F enc fx this r sig h = (budget, hb)
    /\ instance h' = instance hb
    /\ calls h' = (calls hb ++ l)%list
    /\ (l = []
        \/ (l = [verifierCall ga this r sig]
            /\ throws (verifierAnswer ga this r sig) = true)
        \/ (exists g,
              budget = Ok g /\ g <> 0
              /\ throws (verifierAnswer ga this r sig) = false
              /\ l = [verifierCall ga this r sig;
                      Node.relayHub_relayCall (cfg_relayHubAddress (config this))
                        (ga (relayWorker (relayData r))) r sig
                        (gasPrice (relayData r)) g])).
Proof.
  destruct (getMaxViewableRelayGasLimit F enc fx this r sig h) as [[g|e0] h0] eqn:Hb.
  - destruct (Z.eq_dec g 0) as [->|Hg].
    + unfold validateAcceptRelayCall. rewrite (await_resolved _ _ _ Hb).
      cbn [Ethers.eq Z.eqb]. unfold resolve. intros [= <- <-].
      exists (Ok 0), h0, []. rewrite app_nil_r. auto.
    + rewrite (@relayCheck_step F enc ga fx this r sig h g h0 Hb Hg).
      destruct (verifierAnswer ga this r sig) as [u|e] eqn:Hv.
      * cbv zeta. intros Hrun. exists (Ok g), h0. eexists.
        split; [reflexivity|].
        assert (Hh : h' = mkHeap (instance h0)
                   ((calls h0 ++ [verifierCall ga this r sig])
                    ++ [hubCall ga this r sig g])).
        { destruct (hubAnswer ga this r sig g); now injection Hrun as _ <-. }
        subst h'. cbn [instance calls]. split; [reflexivity|].
        split; [now rewrite <- app_assoc|].
        right. right. exists g. repeat split; auto.
      * intros [= <- <-]. exists (Ok g), h0. eexists.
        split; [reflexivity|]. cbn [instance calls].
        split; [reflexivity|]. split; [reflexivity|].
        right. left. split; reflexivity.
  - unfold validateAcceptRelayCall. rewrite (await_rejected _ _ _ Hb).
    intros [= <- <-]. exists (Throw e0), h0, []. rewrite app_nil_r. auto.
Qed.

End Checks.

(* ================================================================= *)
(** ** More on the gas budgets *)

Section Budgets.

Variable F : number.
Variable enc : string -> RequestStruct -> string -> string.
Variable ga : string -> string.
Variable fx : BigNumber -> Result BigNumber.
Variable this : ContractInteractor.t.

(** What a resolved budget was computed from. *)
Lemma relayBudget_resolved r sig h out h' :
  getMaxViewableRelayGasLimit F enc fx this r sig h = (Ok out, h') ->
  exists e h1 bal,
    estimateRelayTransactionMaxPossibleGas F enc fx this r sig h = (Ok e, h1)
    /\ gw_getBalance (provider this) (relayWorker (relayData r)) = Ok bal
    /\ gasPrice (relayData r) <> 0
    /\ out = (if gte (Z.quot bal (gasPrice (relayData r))) e then e else 0)
    /\ h' = mkHeap (instance h1)
              (calls h1 ++ [Node.getBalance (relayWorker (relayData r))]).
Proof.
  unfold getMaxViewableRelayGasLimit.
  assert (Hskip : forall k : BigNumber -> Async BigNumber,
            await (if negb (Ethers.eq (gasPrice (relayData r)) 0)
                   then resolve 0 else resolve 0) k h = k 0 h).
  { intros k. destruct (negb _); reflexivity. }
  rewrite Hskip. unfold await at 1.
  destruct (estimateRelayTransactionMaxPossibleGas F enc fx this r sig h)
    as [[e|err] h1]; [|discriminate].
  unfold getBalance, await, perform, settle, resolve, div.
  destruct (gw_getBalance _ _) as [bal|err]; [|discriminate].
  destruct (Z.eqb_spec (gasPrice (relayData r)) 0) as [Hz|Hnz]; [discriminate|].
  intros [= <- <-]. exists e, h1, bal. repeat split; auto.
Qed.

Lemma deployBudget_resolved d h out h' :
  getMaxViewableDeployGasLimit this d h = (Ok out, h') ->
  (gasPrice (relayData (relayRequest d)) = 0 /\ out = 0 /\ h' = h)
  \/ exists e h1 bal,
       walletFactoryEstimateGasOfDeployCall this d h = (Ok e, h1)
       /\ gw_getBalance (provider this) (relayWorker (relayData (relayRequest d)))
          = Ok bal
       /\ gasPrice (relayData (relayRequest d)) <> 0
       /\ out = (if gte (Z.quot bal (gasPrice (relayData (relayRequest d)))) e
                 then e else 0)
       /\ h' = mkHeap (instance h1)
                 (calls h1
                  ++ [Node.getBalance (relayWorker (relayData (relayRequest d)))]).
Proof.
  unfold getMaxViewableDeployGasLimit, Ethers.eq.
  destruct (Z.eqb_spec (gasPrice (relayData (relayRequest d))) 0) as [Hz|Hnz].
  - unfold resolve. intros [= <- <-]. left. auto.
  - unfold await at 1.
    destruct (walletFactoryEstimateGasOfDeployCall this d h)
      as [[e|err] h1]; [|discriminate].
    unfold getBalance, await, perform, settle, resolve, div.
    destruct (gw_getBalance _ _) as [bal|err]; [|discriminate].
    destruct (Z.eqb_spec (gasPrice (relayData (relayRequest d))) 0); [contradiction|].
    intros [= <- <-]. right. exists e, h1, bal. repeat split; auto.
Qed.

Lemma affordable_choice b p e :
  0 <= b -> 0 < p -> (if gte (Z.quot b p) e then e else 0) * p <= b.
Proof.
  intros Hb Hp. rewrite Z.quot_div_nonneg by lia. unfold gte.
  destruct (Z.leb_spec e (b / p)); [|lia].
  pose proof (Z.mul_div_le b p Hp). nia.
Qed.

(** X5.  A budget is affordable: whenever a budget computation resolves, for
    a balance [b] that is not negative and a positive gas price [p], the
    budget priced at [p] is at most [b]. *)
Theorem budget_is_affordable (b p : Z) :
  0 <= b -> 0 < p ->
  (forall r sig h out h',
      gasPrice (relayData r) = p ->
      gw_getBalance (provider this) (relayWorker (relayData r)) = Ok b ->
      getMaxViewableRelayGasLimit F enc fx this r sig h = (Ok out, h') ->
      out * p <= b)
  /\ (forall d h out h',
      gasPrice (relayData (relayRequest d)) = p ->
      gw_getBalance (provider this) (relayWorker (relayData (relayRequest d))) = Ok b ->
      getMaxViewableDeployGasLimit this d h = (Ok out, h') ->
      out * p <= b).
Proof.
  intros Hb Hp. split.
  - intros r sig h out h' Hprice Hbal Hrun.
    apply relayBudget_resolved in Hrun as (e & h1 & bal & _ & Hbal' & _ & -> & _).
    rewrite Hbal in Hbal'. injection Hbal' as <-. rewrite Hprice.
    now apply affordable_choice.
  - intros d h out h' Hprice Hbal Hrun.
    apply deployBudget_resolved in Hrun
      as [(Hz & _) | (e & h1 & bal & _ & Hbal' & _ & -> & _)]; [lia|].
    rewrite Hbal in Hbal'. injection Hbal' as <-. rewrite Hprice.
    now apply affordable_choice.
Qed.

Lemma relayBudget_zero_price_rejects r sig h :
  gasPrice (relayData r) = 0 ->
  throws (fst (getMaxViewableRelayGasLimit F enc fx this r sig h)) = true.
Proof.
  intros Hp.
  destruct (getMaxViewableRelayGasLimit F enc fx this r sig h) as [[out|e] h'] eqn:Hrun;
    [|reflexivity].
  apply relayBudget_resolved in Hrun as (_ & _ & _ & _ & _ & Hnz & _). contradiction.
Qed.

(** X6.  With a gas price of zero the two checks part ways: the relay check
    rejects, whatever the node answers, and gives no verdict; the deploy
    check resolves at once to the verdict of insufficient balance, without
    a single call to the node. *)
Theorem zero_price_parts_the_checks :
  (forall r sig h,
      gasPrice (relayData r) = 0 ->
      throws (fst (validateAcceptRelayCall F enc ga fx this r sig h)) = true)
  /\ (forall d h,
      gasPrice (relayData (relayRequest d)) = 0 ->
      exists v,
        validateAcceptDeployCall ga this d h = (Ok v, h)
        /\ d_verifierAccepted v = false /\ d_reverted v = false
        /\ JS.includes (d_returnValue v) insufficientBalance).
Proof.
  split.
  - intros r sig h Hp. pose proof (relayBudget_zero_price_rejects r sig h Hp) as Ht.
    unfold validateAcceptRelayCall, await.
    destruct (getMaxViewableRelayGasLimit F enc fx this r sig h) as [[out|e] h'];
      [discriminate | reflexivity].
  - intros d h Hp. eexists. split.
    + unfold validateAcceptDeployCall.
      rewrite (await_resolved _ _ _ (deployBudget_zero_price this d h Hp)).
      reflexivity.
    + cbn [d_verifierAccepted d_reverted d_returnValue].
      split; [reflexivity|]. split; [reflexivity|].
      exists ("relayWorker " ++ ga (relayWorker (relayData (relayRequest d))) ++ " "),
        " to cover the maximum possible gas for this transaction".
      unfold insufficientBalance, getSigner. cbn [_address].
      now rewrite !append_assoc3.
Qed.

(** X7.  A deploy request whose metadata names no hub (the address is
    undefined, empty or the zero address) makes the deploy estimation reject
    with "RelayHub must be defined" before the node is asked anything; the
    deploy check of such a request rejects in the same way when the gas
    price is not zero. *)
Theorem deploy_needs_a_hub d h :
  undefinedAddress (relayHubAddress (metadata d)) = true ->
  walletFactoryEstimateGasOfDeployCall this d h = (Throw hubMustBeDefined, h)
  /\ (gasPrice (relayData (relayRequest d)) <> 0 ->
      getMaxViewableDeployGasLimit this d h = (Throw hubMustBeDefined, h)
      /\ validateAcceptDeployCall ga this d h = (Throw hubMustBeDefined, h)).
Proof.
  intros Hu.
  assert (He : walletFactoryEstimateGasOfDeployCall this d h
               = (Throw hubMustBeDefined, h)).
  { unfold walletFactoryEstimateGasOfDeployCall. now rewrite Hu. }
  split; [exact He|]. intros Hnz.
  assert (Hb : getMaxViewableDeployGasLimit this d h = (Throw hubMustBeDefined, h)).
  { unfold getMaxViewableDeployGasLimit, Ethers.eq.
    destruct (Z.eqb_spec (gasPrice (relayData (relayRequest d))) 0); [contradiction|].
    now rewrite (await_rejected _ _ _ He). }
  split; [exact Hb|].
  unfold validateAcceptDeployCall. now rewrite (await_rejected _ _ _ Hb).
Qed.

(** X8.  A failure of the node is not turned into a verdict.  When the node
    rejects the gas estimate of a relay check, or resolves it and then
    rejects the balance query, the budget computation and the check reject
    with that very error. *)
Theorem node_failure_rejects_the_check r sig h e :
  (gw_estimateGas (provider this) (relayEstimateRequest enc r sig) = Throw e ->
     fst (validateAcceptRelayCall F enc ga fx this r sig h) = Throw e
     /\ calls (snd (validateAcceptRelayCall F enc ga fx this r sig h))
        = (calls h ++ [Node.estimateGas (relayEstimateRequest enc r sig)])%list)
  /\ (forall est h1,
      estimateRelayTransactionMaxPossibleGas F enc fx this r sig h = (Ok est, h1) ->
      gw_getBalance (provider this) (relayWorker (relayData r)) = Throw e ->
      fst (validateAcceptRelayCall F enc ga fx this r sig h) = Throw e).
Proof.
  split.
  - intros He.
    assert (Hb : getMaxViewableRelayGasLimit F enc fx this r sig h
                 = (Throw e, mkHeap (instance h)
                      (calls h ++ [Node.estimateGas (relayEstimateRequest enc r sig)]))).
    { unfold getMaxViewableRelayGasLimit, estimateRelayTransactionMaxPossibleGas,
        provider_estimateGas, await, perform, resolve.
      unfold relayEstimateRequest in He.
      destruct (negb _); rewrite He; reflexivity. }
    unfold validateAcceptRelayCall. rewrite (await_rejected _ _ _ Hb).
    split; reflexivity.
  - intros est h1 Hest Hbal.
    assert (Hb : fst (getMaxViewableRelayGasLimit F enc fx this r sig h) = Throw e).
    { unfold getMaxViewableRelayGasLimit.
      unfold await at 1. destruct (negb _); unfold resolve at 1;
      rewrite (await_resolved _ _ _ Hest);
      unfold getBalance, await, perform; rewrite Hbal; reflexivity. }
    unfold validateAcceptRelayCall, await.
    destruct (getMaxViewableRelayGasLimit F enc fx this r sig h) as [[g|e0] h0];
      cbn [fst] in *; [discriminate | now injection Hb as ->].
Qed.

End Budgets.

(* ================================================================= *)
(** ** More on [getInstance] and [_validateVersion] *)

(** X9.  When the hub's version is supported, the first [getInstance] asks
    the node for it once and resolves to an interactor on the given provider
    and configuration; every later [getInstance] resolves to that same
    interactor, whatever provider and configuration it is given, and asks the
    node nothing. *)
Theorem accepted_instance_is_shared node cfg h version :
  instance h = None ->
  gw_versionHub node (cfg_relayHubAddress cfg) = Ok version ->
  VersionsManager.isMinorSameOrNewer (VersionsManager.mk VERSION) version = Ok true ->
  exists i h1,
    getInstance node cfg h = (Ok i, h1)
    /\ provider i = node /\ config i = cfg
    /\ calls h1 = (calls h ++ [Node.versionHub (cfg_relayHubAddress cfg)])%list
    /\ forall node' cfg', getInstance node' cfg' h1 = (Ok i, h1).
Proof.
  intros Hnone Hver Hnew.
  unfold getInstance, await, readInstance, writeInstance, settle, perform, resolve.
  rewrite Hnone, new_resolves.
  cbn [ContractInteractor.config ContractInteractor.provider instance calls].
  rewrite Hver. unfold _validateVersion.
  cbn [versionManager]. rewrite Hnew. cbn [negb].
  do 2 eexists. split; [reflexivity|].
  cbn [instance calls ContractInteractor.config ContractInteractor.provider].
  split; [reflexivity|]. split; [reflexivity|]. split; [reflexivity|].
  intros node' cfg'. reflexivity.
Qed.

(** X10.  When the node fails to answer [versionHub], the first
    [getInstance] rejects with the node's error; the static field is
    assigned all the same, so that a later [getInstance] resolves to an
    interactor whose hub version was never read. *)
Theorem unreachable_hub_leaves_instance node cfg h e :
  instance h = None ->
  gw_versionHub node (cfg_relayHubAddress cfg) = Throw e ->
  exists i h1,
    getInstance node cfg h = (Throw e, h1)
    /\ instance h1 = Some i /\ provider i = node
    /\ forall node' cfg', getInstance node' cfg' h1 = (Ok i, h1).
Proof.
  intros Hnone Hver.
  unfold getInstance, await, readInstance, writeInstance, settle, perform, resolve.
  rewrite Hnone, new_resolves.
  cbn [ContractInteractor.config ContractInteractor.provider instance calls].
  rewrite Hver.
  do 2 eexists. split; [reflexivity|]. cbn [instance].
  split; [reflexivity|]. split; [reflexivity|].
  intros node' cfg'. reflexivity.
Qed.

(* ================================================================= *)
(** ** More on the version gate *)

Lemma gate_answers vm remote :
  exists b, VersionsManager.isMinorSameOrNewer vm remote = Ok b.
Proof.
  unfold VersionsManager.isMinorSameOrNewer, satisfies, Range_test.
  destruct (Range_new _); [|now exists false].
  destruct (JS.isEmpty _); [now exists false|].
  destruct (SemVer_new _); [eexists; reflexivity | now exists false].
Qed.

Lemma gate_refuses_unparseable vm remote :
  throws (SemVer_new (JS.replace "_" "-" remote)) = true ->
  VersionsManager.isMinorSameOrNewer vm remote = Ok false.
Proof.
  unfold VersionsManager.isMinorSameOrNewer, satisfies, Range_test. intros Ht.
  destruct (Range_new _); [|reflexivity].
  destruct (JS.isEmpty _); [reflexivity|].
  destruct (SemVer_new _); [discriminate | reflexivity].
Qed.

Lemma gate_false_unless cv o remote :
  SemVer_new cv = Ok o ->
  ~ (exists r, SemVer_new (JS.replace "_" "-" remote) = Ok r /\ inCaretRange o r) ->
  VersionsManager.isMinorSameOrNewer (VersionsManager.mk cv) remote = Ok false.
Proof.
  intros Ho Hn. destruct (gate_answers (VersionsManager.mk cv) remote) as [[|] Hb];
    [|exact Hb].
  exfalso. apply Hn. now apply (gate_membership _ remote Ho).
Qed.

(** *** Underscores *)

Lemma digit_not_underscore c : isDigit c = true -> Ascii.eqb c underscore = false.
Proof.
  intros Hd. destruct (Ascii.eqb c underscore) eqn:E; [|reflexivity].
  apply Ascii.eqb_eq in E. subst. discriminate.
Qed.

Lemma identifierChar_not_underscore c :
  isIdentifierChar c = true -> Ascii.eqb c underscore = false.
Proof.
  intros Hd. destruct (Ascii.eqb c underscore) eqn:E; [|reflexivity].
  apply Ascii.eqb_eq in E. subst. discriminate.
Qed.

Lemma whiteSpace_not_underscore c :
  JS.isWhiteSpace c = true -> Ascii.eqb c underscore = false.
Proof.
  intros Hd. destruct (Ascii.eqb c underscore) eqn:E; [|reflexivity].
  apply Ascii.eqb_eq in E. subst. discriminate.
Qed.

Lemma identifierChars_no_underscore s :
  JS.all isIdentifierChar s = true -> JS.count underscore s = O.
Proof.
  induction s as [|c s IH]; [reflexivity|]. cbn [JS.all JS.count].
  intros H. apply andb_prop in H as [Hc Hs].
  now rewrite (identifierChar_not_underscore _ Hc), IH.
Qed.

Lemma digits_are_identifierChars s :
  JS.all isDigit s = true -> JS.all isIdentifierChar s = true.
Proof.
  induction s as [|c s IH]; [reflexivity|]. cbn [JS.all].
  intros H. apply andb_prop in H as [Hc Hs].
  unfold isIdentifierChar at 1. now rewrite Hc, IH.
Qed.

Lemma numericIdentifier_no_underscore s :
  numericIdentifier s = true -> JS.count underscore s = O.
Proof.
  intros H. apply identifierChars_no_underscore, digits_are_identifierChars.
  destruct s as [|c [|d s]]; [discriminate | |].
  - cbn in *. now rewrite H.
  - cbn [numericIdentifier] in H.
    apply andb_prop in H as [H Hs]. apply andb_prop in H as [Hc _].
    cbn [JS.all] in *. now rewrite Hc, Hs.
Qed.

Lemma count_cut sep s :
  Ascii.eqb sep underscore = false ->
  JS.count underscore s
  = (JS.count underscore (fst (JS.cut sep s))
     + match snd (JS.cut sep s) with
       | Some t => JS.count underscore t
       | None => 0
       end)%nat.
Proof.
  intros Hsep. induction s as [|c s IH]; [reflexivity|].
  cbn [JS.cut]. destruct (Ascii.eqb c sep) eqn:Hc.
  - apply Ascii.eqb_eq in Hc. subst c. cbn [fst snd JS.count]. now rewrite Hsep.
  - destruct (JS.cut sep s) as [hd tl]. cbn [fst snd JS.count] in *. lia.
Qed.

Lemma count_split sep s :
  Ascii.eqb sep underscore = false ->
  JS.count underscore s = list_sum (map (JS.count underscore) (JS.split sep s)).
Proof.
  intros Hsep. induction s as [|c s IH]; [reflexivity|].
  cbn [JS.split]. destruct (Ascii.eqb c sep) eqn:Hc.
  - apply Ascii.eqb_eq in Hc. subst c. cbn [map list_sum fold_right JS.count].
    rewrite Hsep. exact IH.
  - destruct (JS.split sep s) as [|hd tl]; cbn [map list_sum fold_right JS.count] in *; lia.
Qed.

Lemma parts_no_underscore (p : string -> bool) sep s :
  Ascii.eqb sep underscore = false ->
  (forall x, p x = true -> JS.count underscore x = O) ->
  forallb p (JS.split sep s) = true ->
  JS.count underscore s = O.
Proof.
  intros Hsep Hp Hall. rewrite (@count_split sep s Hsep). unfold list_sum.
  induction (JS.split sep s) as [|x l IH]; [reflexivity|].
  cbn [forallb] in Hall. apply andb_prop in Hall as [Hx Hl].
  cbn [map fold_right]. now rewrite (Hp _ Hx), IH.
Qed.

Lemma strip_v s :
  JS.count underscore (match s with String "v" s' => s' | _ => s end)
  = JS.count underscore s.
Proof.
  destruct s as [|[[] [] [] [] [] [] [] []] s]; reflexivity.
Qed.

Lemma matchFull_no_underscore s x :
  matchFull s = Some x -> JS.count underscore s = O.
Proof.
  unfold matchFull. rewrite <- (strip_v s).
  set (s0 := match s with String "v" s' => s' | _ => s end).
  rewrite (@count_cut "+" s0 eq_refl).
  destruct (JS.cut "+" s0) as [front bld]. cbn [fst snd].
  rewrite (@count_cut "-" front eq_refl).
  destruct (JS.cut "-" front) as [main pre]. cbn [fst snd].
  rewrite (@count_split "." main eq_refl).
  destruct (JS.split "." main) as [|M [|m [|p [|]]]]; try discriminate.
  destruct (numericIdentifier M) eqn:HM; [|discriminate].
  destruct (numericIdentifier m) eqn:Hm; [|discriminate].
  destruct (numericIdentifier p) eqn:Hp; [|discriminate].
  cbn [andb]. destruct (optionAll prereleaseIdentifier pre) eqn:Hpre; [|discriminate].
  cbn [andb]. destruct (optionAll buildIdentifier bld) eqn:Hbld; [|discriminate].
  intros _. cbn [map list_sum fold_right].
  rewrite (numericIdentifier_no_underscore _ HM),
          (numericIdentifier_no_underscore _ Hm),
          (numericIdentifier_no_underscore _ Hp).
  assert (Hpre0 : match pre with Some t => JS.count underscore t | None => O end = O).
  { destruct pre as [t|]; [|reflexivity]. cbn [optionAll] in Hpre.
    apply (@parts_no_underscore prereleaseIdentifier "." t eq_refl); [|exact Hpre].
    intros x0 Hx. unfold prereleaseIdentifier in Hx.
    apply andb_prop in Hx as [Hx _]. apply andb_prop in Hx as [_ Hx].
    now apply identifierChars_no_underscore. }
  assert (Hbld0 : match bld with Some t => JS.count underscore t | None => O end = O).
  { destruct bld as [t|]; [|reflexivity]. cbn [optionAll] in Hbld.
    apply (@parts_no_underscore buildIdentifier "." t eq_refl); [|exact Hbld].
    intros x0 Hx. unfold buildIdentifier in Hx.
    apply andb_prop in Hx as [_ Hx].
    now apply identifierChars_no_underscore. }
  rewrite Hpre0, Hbld0. reflexivity.
Qed.

Lemma count_trimStart s :
  JS.count underscore (JS.trimStart s) = JS.count underscore s.
Proof.
  induction s as [|c s IH]; [reflexivity|]. cbn [JS.trimStart].
  destruct (JS.isWhiteSpace c) eqn:Hc; [|reflexivity].
  cbn [JS.count]. now rewrite (whiteSpace_not_underscore _ Hc), IH.
Qed.

Lemma count_trimEnd s :
  JS.count underscore (JS.trimEnd s) = JS.count underscore s.
Proof.
  induction s as [|c s IH]; [reflexivity|]. cbn [JS.trimEnd JS.count].
  rewrite <- IH. destruct (JS.trimEnd s) as [|d t].
  - destruct (JS.isWhiteSpace c) eqn:Hc.
    + now rewrite (whiteSpace_not_underscore _ Hc).
    + cbn [JS.count]. lia.
  - reflexivity.
Qed.

(** A string that parses as a version holds no underscore. *)
Lemma version_has_no_underscore s v :
  SemVer_new s = Ok v -> JS.count underscore s = O.
Proof.
  unfold SemVer_new. destruct (_ <? _)%nat; [discriminate|].
  destruct (matchFull (JS.trim s)) as [x|] eqn:Hm; [|discriminate].
  intros _. apply matchFull_no_underscore in Hm.
  unfold JS.trim in Hm. now rewrite count_trimEnd, count_trimStart in Hm.
Qed.

Lemma count_after_replace s :
  JS.count underscore (JS.replace "_" "-" s) = Nat.pred (JS.count underscore s).
Proof.
  induction s as [|c s IH]; [reflexivity|].
  rewrite replace_underscore. cbn [JS.count].
  destruct (Ascii.eqb c underscore) eqn:Hc.
  - cbn [JS.count]. change (Ascii.eqb hyphen underscore) with false. reflexivity.
  - cbn [JS.count]. now rewrite Hc, IH.
Qed.

(** *** What the gate accepts *)

Lemma compareIds_refl l : compareIds l l = Eq.
Proof.
  induction l as [|x l IH]; [reflexivity|]. cbn [compareIds].
  assert (Hx : sameIdentifier x x = true).
  { destruct x; cbn [sameIdentifier]; [apply Z.eqb_refl | apply String.eqb_refl]. }
  now rewrite Hx.
Qed.

Lemma compare_refl v : compare v v = Eq.
Proof.
  unfold compare, compareMain, comparePre. rewrite !Z.compare_refl.
  destruct (prerelease v) as [|x l] eqn:Hp; [reflexivity|].
  apply compareIds_refl.
Qed.

Lemma below_own_bump o : compare o (nextBreaking o) = Lt.
Proof.
  unfold nextBreaking, compare, compareMain.
  destruct (Z.eqb_spec (major o) 0) as [HM|HM];
    [destruct (Z.eqb_spec (minor o) 0) as [Hm|Hm]|]; cbn [major minor patch].
  - rewrite !Z.compare_refl.
    replace (patch o ?= patch o + 1) with Lt; [reflexivity|].
    symmetry. apply Z.compare_lt_iff. lia.
  - rewrite Z.compare_refl.
    replace (minor o ?= minor o + 1) with Lt; [reflexivity|].
    symmetry. apply Z.compare_lt_iff. lia.
  - replace (major o ?= major o + 1) with Lt; [reflexivity|].
    symmetry. apply Z.compare_lt_iff. lia.
Qed.

Lemma sameTuple_refl v : sameTuple v v = true.
Proof. apply sameTuple_spec. auto. Qed.

Lemma inCaretRange_refl o : inSafeRange (nextBreaking o) -> inCaretRange o o.
Proof.
  intros Hs. split; [exact Hs|]. split.
  - unfold notOlder. rewrite compare_refl. discriminate.
  - split; [apply below_own_bump|].
    destruct (prerelease o) as [|x l] eqn:Hp; [now left|].
    right. split; [discriminate | apply sameTuple_refl].
Qed.

(** X11.  A valid version is compatible with itself, unless its caret range
    cannot be built: when the bump of its left-most non-zero number leaves
    the safe integers (a version such as 9007199254740991.0.0), the checker
    is constructed and then refuses every version, its own included. *)
Theorem version_accepts_itself cv vm :
  VersionsManager.new cv = Ok vm ->
  exists o,
    SemVer_new cv = Ok o
    /\ (VersionsManager.isMinorSameOrNewer vm cv = Ok true
        <-> inSafeRange (nextBreaking o))
    /\ (~ inSafeRange (nextBreaking o) ->
        forall remote, VersionsManager.isMinorSameOrNewer vm remote = Ok false).
Proof.
  intros Hnew. apply new_inv in Hnew as [-> [o Ho]].
  exists o. split; [exact Ho|].
  pose proof (replace_without_underscore _ (version_has_no_underscore _ Ho)) as Hsame.
  split; [split|].
  - intros Ht. apply (gate_membership _ cv Ho) in Ht as (r & _ & Hs & _). exact Hs.
  - intros Hs. apply (gate_membership _ cv Ho). exists o. rewrite Hsame.
    split; [exact Ho | now apply inCaretRange_refl].
  - intros Hn remote. apply (@gate_false_unless cv o remote Ho).
    intros (r & _ & Hs & _). contradiction.
Qed.

Lemma below_next_major_tagged r M :
  wellFormed r ->
  compare r (mkSemVer (M + 1) 0 0 [NumId 0] []) = Lt -> major r <= M.
Proof.
  intros Hwf Hlt.
  destruct (Z_le_gt_dec (major r) M) as [Hle|Hgt]; [exact Hle|]. exfalso.
  destruct (hasPrerelease r) eqn:Hp.
  - destruct (sameTuple (mkSemVer (M + 1) 0 0 [NumId 0] []) r) eqn:Hs.
    + exact (@lowest_tag r (mkSemVer (M + 1) 0 0 [NumId 0] []) Hwf eq_refl Hp Hs Hlt).
    + destruct Hwf as [(_ & Hm & Hpt) _].
      assert (Hne : ~ (M + 1 = major r /\ 0 = minor r /\ 0 = patch r)).
      { intros Heq. apply (proj2 (sameTuple_spec (mkSemVer (M + 1) 0 0 [NumId 0] []) r)) in Heq.
        congruence. }
      revert Hlt. unfold compare, compareMain. cbn [major minor patch].
      destruct (Z.compare_spec (major r) (M + 1)),
               (Z.compare_spec (minor r) 0), (Z.compare_spec (patch r) 0);
        try discriminate; lia.
  - unfold hasPrerelease in Hp. destruct (prerelease r) eqn:Hrel; [|discriminate].
    apply (proj1 (@below_next_major r M Hwf Hrel)) in Hlt. lia.
Qed.

(** X12.  A checker whose own version is 1.0.0 or later refuses every remote
    version of another major version, older or newer, tagged or not. *)
Theorem other_major_is_refused cv vm o remote r :
  VersionsManager.new cv = Ok vm ->
  SemVer_new cv = Ok o -> 1 <= major o ->
  SemVer_new (JS.replace "_" "-" remote) = Ok r ->
  major r <> major o ->
  VersionsManager.isMinorSameOrNewer vm remote = Ok false.
Proof.
  intros Hnew Ho HM Hr Hne. apply new_inv in Hnew as [-> _].
  apply (@gate_false_unless cv o remote Ho).
  intros (r' & Hr' & _ & Hold & Hlt & _).
  rewrite Hr in Hr'. injection Hr' as <-.
  pose proof (notOlder_major Hold) as Hge.
  unfold nextBreaking in Hlt.
  destruct (Z.eqb_spec (major o) 0) as [Hz|_]; [lia|].
  apply (@below_next_major_tagged r (major o) (SemVer_new_wellFormed _ Hr)) in Hlt. lia.
Qed.

(** X13.  Only the numbers and the pre-release tag of the own version
    matter: two valid own versions that parse to the same numbers and tag (a
    leading [v] and build metadata apart) give checkers that answer alike on
    every remote version. *)
Theorem own_spelling_is_irrelevant cv cv' o o' remote :
  SemVer_new cv = Ok o -> SemVer_new cv' = Ok o' ->
  major o = major o' -> minor o = minor o' -> patch o = patch o' ->
  prerelease o = prerelease o' ->
  VersionsManager.isMinorSameOrNewer (VersionsManager.mk cv) remote
  = VersionsManager.isMinorSameOrNewer (VersionsManager.mk cv') remote.
Proof.
  intros Ho Ho' HM Hm Hp Hpre.
  unfold VersionsManager.isMinorSameOrNewer, satisfies.
  cbn [VersionsManager.componentVersion].
  rewrite (Range_new_caret _ Ho), (Range_new_caret _ Ho').
  now rewrite HM, Hm, Hp, Hpre.
Qed.

(** X14.  A remote version string with two or more underscores is refused
    by every checker: one underscore is left after the replacement, and no
    version holds an underscore. *)
Theorem two_underscores_are_refused vm remote :
  (2 <= JS.count underscore remote)%nat ->
  VersionsManager.isMinorSameOrNewer vm remote = Ok false.
Proof.
  intros Htwo. apply gate_refuses_unparseable.
  destruct (SemVer_new (JS.replace "_" "-" remote)) as [v|e] eqn:Hv; [|reflexivity].
  apply version_has_no_underscore in Hv. rewrite count_after_replace in Hv. lia.
Qed.

Lemma caret_of_own_version r :
  wellFormed r ->
  inCaretRange ownVersion r
  <-> prerelease r = [] /\ major r = 2 /\ (1 <= minor r \/ 1 <= patch r).
Proof.
  intros Hwf. split.
  - intros Hin. assert (Hrel : prerelease r = []).
    { destruct Hin as (_ & _ & _ & [Hrel | [Habs _]]); [exact Hrel|].
      now contradiction Habs. }
    split; [exact Hrel|].
    apply (@caret_same_major ownVersion r Hwf Hrel) in Hin as [HM Hold];
      [|unfold MAX_SAFE_INTEGER; cbn; lia].
    split; [exact HM|]. destruct Hwf as [(_ & Hm & Hp) _].
    revert Hold. unfold notOlder, compare, compareMain, comparePre.
    cbn [ownVersion major minor patch prerelease] in *. rewrite HM, Hrel.
    cbn [Z.compare Pos.compare Pos.compare_cont].
    destruct (Z.compare_spec (minor r) 0), (Z.compare_spec (patch r) 1);
      intros Hn; try lia; exfalso; now apply Hn.
  - intros (Hrel & HM & Hpos).
    apply (@caret_same_major ownVersion r Hwf Hrel);
      [unfold MAX_SAFE_INTEGER; cbn; lia|].
    split; [exact HM|]. destruct Hwf as [(_ & Hm & Hp) _].
    unfold notOlder, compare, compareMain, comparePre.
    cbn [ownVersion major minor patch prerelease] in *. rewrite HM, Hrel.
    cbn [Z.compare Pos.compare Pos.compare_cont].
    destruct (Z.compare_spec (minor r) 0), (Z.compare_spec (patch r) 1);
      try discriminate; lia.
Qed.

(** X15.  The interactor, whose version is 2.0.1, supports exactly the hub
    versions that (their first underscore replaced by a hyphen) parse to a
    version 2.y.z without pre-release tag and not below 2.0.1;
    [_validateVersion] returns for those and throws for every other string
    the error that names the hub version and the interactor's. *)
Theorem supported_hub_versions i version :
  versionManager i = VersionsManager.mk VERSION ->
  (_validateVersion i version = Ok tt
   <-> exists r,
         SemVer_new (JS.replace "_" "-" version) = Ok r
         /\ prerelease r = [] /\ major r = 2
         /\ (1 <= minor r \/ 1 <= patch r))
  /\ (_validateVersion i version = Ok tt
      \/ _validateVersion i version = Throw (unsupportedHub version VERSION)).
Proof.
  intros Hvm. unfold _validateVersion. rewrite Hvm.
  cbn [VersionsManager.componentVersion].
  assert (Ho : SemVer_new VERSION = Ok ownVersion) by reflexivity.
  pose proof (gate_membership _ version Ho) as Hgate.
  destruct (gate_answers (VersionsManager.mk VERSION) version) as [[|] Hb];
    rewrite Hb; cbn [negb].
  - split; [|now left]. split; [intros _|reflexivity].
    apply Hgate in Hb as (r & Hr & Hin). exists r. split; [exact Hr|].
    now apply (caret_of_own_version (SemVer_new_wellFormed _ Hr)).
  - split; [|now right]. split; [discriminate|].
    intros (r & Hr & Hin). exfalso.
    assert (Ht : VersionsManager.isMinorSameOrNewer (VersionsManager.mk VERSION) version
                 = Ok true).
    { apply Hgate. exists r. split; [exact Hr|].
      now apply (caret_of_own_version (SemVer_new_wellFormed _ Hr)). }
    congruence.
Qed.

(* ================================================================= *)
(** ** The other accessors *)

Section AccessorFacts.

Import Accessors.

Variable F : number.
Variable fx : BigNumber -> Result BigNumber.
Variable contracts : Contracts.

Lemma collect_values {A : Type} (rs : list (Result A)) l :
  collect rs = Ok l <-> rs = map Ok l.
Proof.
  revert l. induction rs as [|[a|e] rs IH]; intros l; cbn [collect].
  - split; [intros [= <-]; reflexivity|]. destruct l; [reflexivity | discriminate].
  - destruct (collect rs) as [l'|e].
    + split.
      * intros [= <-]. cbn [map]. f_equal. now apply IH.
      * destruct l as [|b l]; [discriminate|]. cbn [map]. intros [= -> Hrs].
        f_equal. f_equal. apply IH in Hrs. congruence.
    + split; [discriminate|].
      destruct l as [|b l]; [discriminate|]. cbn [map]. intros [= -> Hrs].
      apply (IH l) in Hrs. discriminate.
  - split; [discriminate|]. destruct l; discriminate.
Qed.

(** X16.  [getRelayInfo] asks the hub once for each manager, in order,
    whether or not some of the answers are rejections; it resolves exactly
    when every answer resolves, to the answers in the order of the
    managers. *)
Theorem getRelayInfo_asks_every_manager managers t :
  snd (getRelayInfo contracts managers t)
  = (t ++ map relayHub_getRelayInfo managers)%list
  /\ forall infos,
       fst (getRelayInfo contracts managers t) = Ok infos
       <-> map (hub_getRelayInfo contracts) managers = map Ok infos.
Proof.
  unfold getRelayInfo, promiseAll. cbn [fst snd]. rewrite !map_map. cbn [fst snd].
  split; [reflexivity|]. intros infos. apply collect_values.
Qed.

(** X17.  When [getActiveRelayInfo] resolves, it holds exactly the data of
    the managers asked about that are registered and currently staked, never
    more entries than managers, and it made the calls of [getRelayInfo]; it
    rejects exactly when [getRelayInfo] does. *)
Theorem getActiveRelayInfo_keeps_the_active managers t :
  snd (getActiveRelayInfo contracts managers t)
  = snd (getRelayInfo contracts managers t)
  /\ (throws (fst (getActiveRelayInfo contracts managers t))
      = throws (fst (getRelayInfo contracts managers t)))
  /\ forall active,
       fst (getActiveRelayInfo contracts managers t) = Ok active ->
       (forall d, In d active
                  <-> (exists m, In m managers /\ hub_getRelayInfo contracts m = Ok d)
                      /\ registered d = true /\ currentlyStaked d = true)
       /\ (List.length active <= List.length managers)%nat.
Proof.
  unfold getActiveRelayInfo, andThen.
  destruct (getRelayInfo contracts managers t) as [[infos|e] t'] eqn:Hrun;
    cbn [fst snd done throws].
  2:{ split; [reflexivity|]. split; [reflexivity|]. discriminate. }
  split; [reflexivity|]. split; [reflexivity|].
  intros active [= <-].
  assert (Hmap : map (hub_getRelayInfo contracts) managers = map Ok infos).
  { unfold getRelayInfo, promiseAll in Hrun. injection Hrun as Hrun _.
    rewrite map_map in Hrun. cbn [snd] in Hrun. now apply collect_values. }
  assert (Hin : forall d, In d infos
            <-> exists m, In m managers /\ hub_getRelayInfo contracts m = Ok d).
  { intros d. split.
    - intros Hd. apply (in_map Ok) in Hd. rewrite <- Hmap in Hd.
      apply in_map_iff in Hd as (m & Hm & Hi). now exists m.
    - intros (m & Hi & Hm).
      apply (in_map (hub_getRelayInfo contracts)) in Hi. rewrite Hmap, Hm in Hi.
      apply in_map_iff in Hi as (d' & [= ->] & Hd). exact Hd. }
  split.
  - intros d. rewrite filter_In, andb_true_iff, Hin. tauto.
  - apply (f_equal (@List.length _)) in Hmap. rewrite !length_map in Hmap.
    rewrite Hmap. apply filter_length_le.
Qed.

(** X18.  [getPastEventsForHub] queries the hub once for each event name, in
    order and with the same block range, and resolves to one list of events
    for each name; when no names are given, the names are the four default
    manager events. *)
Theorem getPastEventsForHub_queries_each_name fromBlock toBlock names t :
  let asked := match names with
               | Some l => l
               | None => [ "RelayServerRegistered"; "RelayWorkersAdded";
                           "TransactionRelayed";
                           "TransactionRelayedButRevertedByRecipient" ]
               end in
  snd (getPastEventsForHub contracts fromBlock toBlock names t)
  = (t ++ map (fun name => relayHub_queryFilter name fromBlock toBlock) asked)%list
  /\ forall events,
       fst (getPastEventsForHub contracts fromBlock toBlock names t) = Ok events ->
       List.length events = List.length asked
       /\ map (fun name => hub_queryFilter contracts name fromBlock toBlock) asked
          = map Ok events.
Proof.
  unfold getPastEventsForHub, promiseAll. cbn [fst snd]. rewrite !map_map.
  cbn [fst snd]. fold DEFAULT_MANAGER_EVENTS.
  change [ "RelayServerRegistered"; "RelayWorkersAdded"; "TransactionRelayed";
           "TransactionRelayedButRevertedByRecipient" ] with DEFAULT_MANAGER_EVENTS.
  set (asked := match names with Some l => l | None => DEFAULT_MANAGER_EVENTS end).
  cbv zeta. split; [reflexivity|].
  intros events Hev. apply collect_values in Hev. split; [|exact Hev].
  apply (f_equal (@List.length _)) in Hev. now rewrite !length_map in Hev.
Qed.

(** X19.  A relay transaction request whose metadata names no hub (the
    address is undefined, empty or the zero address) makes
    [estimateRelayTransactionMaxPossibleGasWithTransactionRequest] reject
    with "RelayHub must be defined" before the hub is asked.  For a request
    that names a hub, the hub is asked once, and with a whole correction
    factor [k] and a raw estimate [raw], neither negative, the method
    resolves to [raw * k * 10^18]: the passage through [FixedNumber] scales
    the corrected estimate by 10^18. *)
Theorem relay_estimate_needs_a_hub req t :
  (ContractInteractor.undefinedAddress (relayHubAddress (metadata req)) = true ->
     estimateRelayTransactionMaxPossibleGasWithTransactionRequest F fx contracts req t
     = (Throw hubMustBeDefined, t))
  /\ (forall hub raw k,
      relayHubAddress (metadata req) = Some hub ->
      ContractInteractor.undefinedAddress (Some hub) = false ->
      hub_estimateGas_relayCall contracts hub
        (relayWorker (relayData (relayRequest req))) (relayRequest req)
        (signature (metadata req)) (gasPrice (relayData (relayRequest req))) = Ok raw ->
      from_number F = Ok k -> 0 <= raw -> 0 <= k ->
      estimateRelayTransactionMaxPossibleGasWithTransactionRequest
        F throughFixedNumber contracts req t
      = (Ok (raw * k * 10 ^ 18),
         (t ++ [relayHub_estimateGas_relayCall hub
                  (relayWorker (relayData (relayRequest req))) (relayRequest req)
                  (signature (metadata req))
                  (gasPrice (relayData (relayRequest req)))])%list)).
Proof.
  unfold estimateRelayTransactionMaxPossibleGasWithTransactionRequest. split.
  - intros ->. reflexivity.
  - intros hub raw k -> Hdef Hraw Hk Hr0 Hk0. rewrite Hdef.
    unfold andThen, ask, mul, throughFixedNumber. rewrite Hraw, Hk.
    destruct (Z.leb_spec 0 (raw * k)) as [_|Hneg]; [reflexivity | nia].
Qed.

(** X20.  [walletFactoryDeployEstimateGasForInternalCall] with [testCall]
    first runs the wallet creation as a static call: when that call rejects,
    the method rejects with its error and no estimate is requested; when it
    resolves, or without [testCall], the method is settled by the factory's
    gas estimate. *)
Theorem test_call_comes_first r factory suffixData sig t :
  let from := relayHub (request r) in
  let price := gasPrice (relayData r) in
  let static :=
    factory_callStatic_relayedUserSmartWalletCreation
      factory from r suffixData sig price in
  let estimate :=
    factory_estimateGas_relayedUserSmartWalletCreation
      factory from r suffixData sig price in
  (forall e,
     factory_callStatic contracts factory from r suffixData sig price = Throw e ->
     walletFactoryDeployEstimateGasForInternalCall contracts r factory suffixData sig true t
     = (Throw e, (t ++ [static])%list))
  /\ (throws (factory_callStatic contracts factory from r suffixData sig price) = false ->
     walletFactoryDeployEstimateGasForInternalCall contracts r factory suffixData sig true t
     = (factory_estimateGas contracts factory from r suffixData sig price,
        (t ++ [static; estimate])%list))
  /\ walletFactoryDeployEstimateGasForInternalCall contracts r factory suffixData sig false t
     = (factory_estimateGas contracts factory from r suffixData sig price,
        (t ++ [estimate])%list).
Proof.
  cbv zeta. unfold walletFactoryDeployEstimateGasForInternalCall, andThen, ask, done.
  split; [|split].
  - intros e ->. reflexivity.
  - destruct (factory_callStatic _ _ _ _ _ _ _); [|discriminate].
    intros _. now rewrite <- app_assoc.
  - reflexivity.
Qed.

End AccessorFacts.

(** X21.  With the cushion, the destination-call estimation multiplies the
    internal call cost by the correction factor when the factor is a whole
    number, and with the factor 1.0 the cushion changes nothing. *)
Theorem cushion_multiplies F C this (details : EstimateGasParams) h raw k :
  from_number F = Ok k ->
  gw_estimateGas (provider this)
    {| tx_from := egp_from details;
       tx_to := egp_to details;
       tx_data := egp_data details;
       tx_gasPrice := option_map OfString (egp_gasPrice details) |} = Ok raw ->
  fst (estimateDestinationContractCallGas F C this details true h)
  = Ok ((if C <? raw then raw - C else raw) * k)
  /\ (k = 1 ->
      estimateDestinationContractCallGas F C this details true h
      = estimateDestinationContractCallGas F C this details false h).
Proof.
  intros Hk Hraw.
  unfold estimateDestinationContractCallGas, provider_estimateGas, await, perform,
    settle, resolve, mul, gt, sub.
  rewrite Hraw, Hk. cbn [fst]. split; [reflexivity|].
  intros ->. now rewrite Z.mul_1_r.
Qed.

(** X22.  A component version that holds an underscore is not valid: the
    constructor of the checker throws for it.  The replacement of the
    underscore is applied to the remote version only. *)
Theorem constructor_rejects_underscores cv :
  (1 <= JS.count underscore cv)%nat ->
  VersionsManager.new cv = Throw (mkError "Component version is not valid").
Proof.
  intros Hone. unfold VersionsManager.new, valid.
  destruct (SemVer_new cv) as [v|e] eqn:Hv; [|reflexivity].
  apply version_has_no_underscore in Hv. lia.
Qed.

(* ================================================================= *)
(** ** The further statements at concrete inputs *)

Lemma deploy_failures_become_verdicts_witness :
  (exists v h2,
     deployCheckOn (fundedNode (Throw notTheOwner) (Ok someTransaction)) gwei = (Ok v, h2)
     /\ d_verifierAccepted v = false /\ d_reverted v = false
     /\ JS.includes (d_returnValue v) (message notTheOwner))
  /\ (exists v h2,
     deployCheckOn revertingDeployNode gwei = (Ok v, h2)
     /\ d_verifierAccepted v = true /\ d_reverted v = true
     /\ JS.includes (d_returnValue v) "revert").
Proof.
  split.
  - destruct (@deploy_failures_become_verdicts sameAddress
               (interactorOn (fundedNode (Throw notTheOwner) (Ok someTransaction)))
               (deployAt gwei) emptyHeap 100000 _ eq_refl ltac:(discriminate))
      as [Hverifier _].
    destruct (Hverifier notTheOwner eq_refl) as (v & Hrun & Hrest).
    exists v. eexists. split; [exact Hrun | exact Hrest].
  - destruct (@deploy_failures_become_verdicts sameAddress
               (interactorOn revertingDeployNode)
               (deployAt gwei) emptyHeap 100000 _ eq_refl ltac:(discriminate))
      as [_ Hhub].
    exact (Hhub (mkError "revert") eq_refl eq_refl).
Defined.

Lemma deploy_verdict_carries_hash_witness :
  fst (deployCheckOn (fundedNode (Ok tt) (Ok someTransaction)) gwei)
  = Ok {| d_verifierAccepted := true; d_reverted := false; d_returnValue := "0xabc" |}.
Proof.
  unfold deployCheckOn.
  rewrite (@deploy_verdict_carries_hash sameAddress
             (interactorOn (fundedNode (Ok tt) (Ok someTransaction)))
             (deployAt gwei) emptyHeap 100000 _ someTransaction
             eq_refl ltac:(discriminate) eq_refl eq_refl).
  reflexivity.
Defined.

Lemma hub_is_simulated_after_acceptance_witness :
  exists budget hb l,
    relayBudgetOn (fundedNode (Ok tt) (Ok someTransaction)) gwei = (budget, hb)
    /\ calls (snd (relayCheckOn (fundedNode (Ok tt) (Ok someTransaction)) gwei))
       = (calls hb ++ l)%list
    /\ List.length l = 2%nat.
Proof.
  destruct (@hub_is_simulated_after_acceptance one encodeTag sameAddress throughFixedNumber
              (interactorOn (fundedNode (Ok tt) (Ok someTransaction))) (requestAt gwei)
              theSignature emptyHeap
              (fst (relayCheckOn (fundedNode (Ok tt) (Ok someTransaction)) gwei))
              (snd (relayCheckOn (fundedNode (Ok tt) (Ok someTransaction)) gwei)) eq_refl)
    as (budget & hb & l & Hb & _ & Hcalls & Hshape).
  exists budget, hb, l. split; [exact Hb|]. split; [exact Hcalls|].
  destruct Hshape as [-> | [[-> Habs] | (g & _ & _ & _ & ->)]].
  - vm_compute in Hb. injection Hb as _ <-. vm_compute in Hcalls. discriminate.
  - discriminate.
  - reflexivity.
Defined.

Lemma budget_is_affordable_witness :
  (exists out h',
     relayBudgetOn relayBoundaryNode 10 = (Ok out, h')
     /\ 0 < out /\ out * 10 <= 10 ^ 21)
  /\ (exists out h',
     deployBudgetOn boundaryNode 10 = (Ok out, h')
     /\ 0 < out /\ out * 10 <= 1000).
Proof.
  split.
  - exists (100 * 10 ^ 18), (snd (relayBudgetOn relayBoundaryNode 10)).
    assert (Hrun : relayBudgetOn relayBoundaryNode 10
                   = (Ok (100 * 10 ^ 18), snd (relayBudgetOn relayBoundaryNode 10)))
      by (vm_compute; reflexivity).
    split; [exact Hrun|]. split; [reflexivity|].
    exact (proj1 (@budget_is_affordable one encodeTag throughFixedNumber
                    (interactorOn relayBoundaryNode) (10 ^ 21) 10
                    ltac:(vm_compute; discriminate) ltac:(reflexivity))
             (requestAt 10) theSignature emptyHeap _ _ eq_refl eq_refl Hrun).
  - exists 100, (snd (deployBudgetOn boundaryNode 10)).
    assert (Hrun : deployBudgetOn boundaryNode 10
                   = (Ok 100, snd (deployBudgetOn boundaryNode 10)))
      by (vm_compute; reflexivity).
    split; [exact Hrun|]. split; [reflexivity|].
    exact (proj2 (@budget_is_affordable one encodeTag throughFixedNumber
                    (interactorOn boundaryNode) 1000 10
                    ltac:(vm_compute; discriminate) ltac:(reflexivity))
             (deployAt 10) emptyHeap _ _ eq_refl eq_refl Hrun).
Defined.

Lemma zero_price_parts_the_checks_witness :
  throws (fst (relayCheckOn (fundedNode (Ok tt) (Ok someTransaction)) 0)) = true
  /\ exists v,
       deployCheckOn (fundedNode (Ok tt) (Ok someTransaction)) 0 = (Ok v, emptyHeap)
       /\ d_verifierAccepted v = false /\ d_reverted v = false
       /\ JS.includes (d_returnValue v) insufficientBalance.
Proof.
  destruct (@zero_price_parts_the_checks one encodeTag sameAddress throughFixedNumber
              (interactorOn (fundedNode (Ok tt) (Ok someTransaction)))) as [Hrelay Hdeploy].
  split.
  - exact (Hrelay (requestAt 0) theSignature emptyHeap eq_refl).
  - exact (Hdeploy (deployAt 0) emptyHeap eq_refl).
Defined.

Lemma deploy_needs_a_hub_witness :
  validateAcceptDeployCall sameAddress (interactorOn (fundedNode (Ok tt) (Ok someTransaction)))
    (deployWithoutHub gwei) emptyHeap
  = (Throw hubMustBeDefined, emptyHeap).
Proof.
  exact (proj2 (proj2 (@deploy_needs_a_hub sameAddress
                         (interactorOn (fundedNode (Ok tt) (Ok someTransaction)))
                         (deployWithoutHub gwei) emptyHeap eq_refl)
                  ltac:(discriminate))).
Defined.

Lemma node_failure_rejects_the_check_witness :
  fst (relayCheckOn deafNode gwei) = Throw timedOut.
Proof.
  exact (proj1 (proj1 (@node_failure_rejects_the_check one encodeTag sameAddress
                         throughFixedNumber (interactorOn deafNode) (requestAt gwei)
                         theSignature emptyHeap timedOut) eq_refl)).
Defined.

Lemma accepted_instance_is_shared_witness :
  exists i h1,
    getInstance (fundedNode (Ok tt) (Ok someTransaction)) someConfig emptyHeap = (Ok i, h1)
    /\ provider i = fundedNode (Ok tt) (Ok someTransaction) /\ config i = someConfig
    /\ calls h1 = [Node.versionHub hubAddress]
    /\ forall node' cfg', getInstance node' cfg' h1 = (Ok i, h1).
Proof.
  exact (@accepted_instance_is_shared (fundedNode (Ok tt) (Ok someTransaction)) someConfig
           emptyHeap "2.0.1" eq_refl eq_refl eq_refl).
Defined.

Lemma unreachable_hub_leaves_instance_witness :
  exists i h1,
    getInstance unreachableNode someConfig emptyHeap
      = (Throw (mkError "could not detect network"), h1)
    /\ instance h1 = Some i /\ provider i = unreachableNode
    /\ forall node' cfg', getInstance node' cfg' h1 = (Ok i, h1).
Proof.
  exact (@unreachable_hub_leaves_instance unreachableNode someConfig emptyHeap
           (mkError "could not detect network") eq_refl eq_refl).
Defined.

Lemma version_accepts_itself_witness :
  VersionsManager.isMinorSameOrNewer (VersionsManager.mk "2.0.1") "2.0.1" = Ok true
  /\ VersionsManager.isMinorSameOrNewer (VersionsManager.mk lastMajor) lastMajor
     = Ok false.
Proof.
  split.
  - destruct (@version_accepts_itself "2.0.1" _ eq_refl) as (o & Ho & Hiff & _).
    apply Hiff. vm_compute in Ho. injection Ho as <-.
    unfold inSafeRange, nextBreaking, MAX_SAFE_INTEGER. cbn. lia.
  - destruct (@version_accepts_itself lastMajor _ eq_refl) as (o & Ho & _ & Hnone).
    apply Hnone. vm_compute in Ho. injection Ho as <-.
    unfold inSafeRange, nextBreaking, MAX_SAFE_INTEGER. cbn. lia.
Defined.

Lemma other_major_is_refused_witness :
  VersionsManager.isMinorSameOrNewer (VersionsManager.mk "2.0.1") "3.0.0" = Ok false.
Proof.
  exact (@other_major_is_refused "2.0.1" _ ownVersion "3.0.0"
           (mkSemVer 3 0 0 [] []) eq_refl eq_refl ltac:(cbn; lia) eq_refl
           ltac:(cbn; lia)).
Defined.

Lemma own_spelling_is_irrelevant_witness :
  VersionsManager.isMinorSameOrNewer (VersionsManager.mk "v2.0.1+build.5") "2.1.0"
  = VersionsManager.isMinorSameOrNewer (VersionsManager.mk "2.0.1") "2.1.0".
Proof.
  exact (@own_spelling_is_irrelevant "v2.0.1+build.5" "2.0.1"
           (mkSemVer 2 0 1 [] ["build"; "5"]) ownVersion "2.1.0"
           eq_refl eq_refl eq_refl eq_refl eq_refl eq_refl).
Defined.

Lemma two_underscores_are_refused_witness :
  VersionsManager.isMinorSameOrNewer (VersionsManager.mk "2.0.1-rc") "2.0.1-rc_1_2"
  = Ok false.
Proof.
  exact (@two_underscores_are_refused (VersionsManager.mk "2.0.1-rc") "2.0.1-rc_1_2"
           ltac:(vm_compute; lia)).
Defined.

Lemma supported_hub_versions_witness :
  _validateVersion (interactorOn brokeNode) "2.4.0" = Ok tt
  /\ _validateVersion (interactorOn brokeNode) "2.0.0"
     = Throw (unsupportedHub "2.0.0" VERSION).
Proof.
  split.
  - apply (proj1 (@supported_hub_versions (interactorOn brokeNode) "2.4.0" eq_refl)).
    exists (mkSemVer 2 4 0 [] []). split; [reflexivity|].
    split; [reflexivity|]. split; [reflexivity|]. left. cbn. lia.
  - destruct (@supported_hub_versions (interactorOn brokeNode) "2.0.0" eq_refl)
      as [Hiff [Hok | Hthrow]]; [|exact Hthrow].
    apply Hiff in Hok as (r & Hr & _ & _ & Hpos).
    vm_compute in Hr. injection Hr as <-. cbn in Hpos. lia.
Defined.

Lemma cushion_multiplies_witness :
  fst (estimateDestinationContractCallGas one 20000
         (interactorOn (fundedNode (Ok tt) (Ok someTransaction))) (detailsOf "1000000000")
         true emptyHeap)
  = Ok 80000.
Proof.
  exact (proj1 (@cushion_multiplies one 20000
                  (interactorOn (fundedNode (Ok tt) (Ok someTransaction)))
                  (detailsOf "1000000000") emptyHeap 100000 1 eq_refl eq_refl)).
Defined.

Lemma constructor_rejects_underscores_witness :
  VersionsManager.new "2.0.1_beta" = Throw (mkError "Component version is not valid").
Proof.
  exact (@constructor_rejects_underscores "2.0.1_beta" ltac:(vm_compute; lia)).
Defined.

Lemma getActiveRelayInfo_keeps_the_active_witness :
  exists active,
    fst (Accessors.getActiveRelayInfo (someContracts (Ok tt))
           [Accessors.manager activeManager; Accessors.manager unstakedManager] [])
    = Ok active
    /\ In activeManager active /\ ~ In unstakedManager active.
Proof.
  eexists. split; [reflexivity|].
  destruct (proj2 (proj2 (@getActiveRelayInfo_keeps_the_active (someContracts (Ok tt))
              [Accessors.manager activeManager; Accessors.manager unstakedManager] []))
              _ eq_refl) as [Hin _].
  split.
  - apply Hin. split; [|split; reflexivity].
    exists (Accessors.manager activeManager). split; [now left | reflexivity].
  - intros Habs. apply Hin in Habs as (_ & _ & Hstaked). discriminate.
Defined.

Lemma getPastEventsForHub_queries_each_name_witness :
  exists events,
    fst (Accessors.getPastEventsForHub (someContracts (Ok tt)) (Some 1) None None [])
    = Ok events
    /\ List.length events = 4%nat.
Proof.
  eexists. split; [reflexivity|].
  exact (proj1 (proj2 (@getPastEventsForHub_queries_each_name (someContracts (Ok tt))
                         (Some 1) None None []) _ eq_refl)).
Defined.

Lemma relay_estimate_needs_a_hub_witness :
  Accessors.estimateRelayTransactionMaxPossibleGasWithTransactionRequest
    one throughFixedNumber (someContracts (Ok tt)) (deployWithoutHub gwei) []
  = (Throw hubMustBeDefined, [])
  /\ Accessors.estimateRelayTransactionMaxPossibleGasWithTransactionRequest
       one throughFixedNumber (someContracts (Ok tt)) (deployAt gwei) []
     = (Ok (100000 * 1 * 10 ^ 18),
        [Accessors.relayHub_estimateGas_relayCall hubAddress
           (relayWorker (relayData (requestAt gwei))) (requestAt gwei)
           "0x5161" gwei]).
Proof.
  split.
  - exact (proj1 (@relay_estimate_needs_a_hub one throughFixedNumber
                    (someContracts (Ok tt)) (deployWithoutHub gwei) []) eq_refl).
  - exact (proj2 (@relay_estimate_needs_a_hub one throughFixedNumber
                    (someContracts (Ok tt)) (deployAt gwei) [])
             hubAddress 100000 1 eq_refl eq_refl eq_refl eq_refl
             ltac:(vm_compute; discriminate) ltac:(vm_compute; discriminate)).
Defined.

Lemma test_call_comes_first_witness :
  Accessors.walletFactoryDeployEstimateGasForInternalCall
    (someContracts (Throw notTheOwner)) (requestAt gwei)
    "0x00000000000000000000000000000000000000F0" "0x00" theSignature true []
  = (Throw notTheOwner,
     [Accessors.factory_callStatic_relayedUserSmartWalletCreation
        "0x00000000000000000000000000000000000000F0" hubAddress (requestAt gwei)
        "0x00" theSignature gwei]).
Proof.
  exact (proj1 (@test_call_comes_first (someContracts (Throw notTheOwner))
                  (requestAt gwei) "0x00000000000000000000000000000000000000F0"
                  "0x00" theSignature []) notTheOwner eq_refl).
Defined.

(** Numeric tags from 2^53 on are compared as doubles: 9007199254740993 and
    9007199254740992 are the same double, so that each of the two versions
    is not older than the other. *)
Lemma big_tags_are_doubles :
  VersionsManager.isMinorSameOrNewer
    (VersionsManager.mk "1.0.0-9007199254740993") "1.0.0-9007199254740992" = Ok true
  /\ VersionsManager.isMinorSameOrNewer
       (VersionsManager.mk "1.0.0-9007199254740992") "1.0.0-9007199254740993" = Ok true
  /\ VersionsManager.isMinorSameOrNewer
       (VersionsManager.mk "1.0.0-9007199254740995") "1.0.0-9007199254740992" = Ok false.
Proof. split; [|split]; reflexivity. Qed.

(** With a whole correction factor, 1.0 included, the relay estimation does
    not return the corrected estimate but the corrected estimate scaled by
    10^18. *)
Lemma relay_estimate_is_scaled F enc this r sig h raw k :
  gw_estimateGas (provider this) (relayEstimateRequest enc r sig) = Ok raw ->
  from_number F = Ok k -> 0 <= raw -> 0 <= k ->
  fst (estimateRelayTransactionMaxPossibleGas F enc throughFixedNumber this r sig h)
  = Ok (raw * k * 10 ^ 18).
Proof.
  intros Hraw Hk Hr0 Hk0.
  unfold estimateRelayTransactionMaxPossibleGas, provider_estimateGas, await,
    perform, settle, mul, throughFixedNumber.
  unfold relayEstimateRequest in Hraw. rewrite Hraw, Hk. cbn [fst].
  destruct (Z.leb_spec 0 (raw * k)) as [_|Hneg]; [reflexivity | nia].
Qed.
